(** * The generic MCP HTTP wrapper (src/http_server.py), embedded in Rocq

    The wrapper keeps one stdio MCP session ([MCPClient]) behind three Flask
    routes.  The embedding follows the Python source function by function:

    - Python values (request bodies, the loaded configuration) are [pyval];
      dicts with string keys are [gmap string pyval];
    - a coroutine or handler is a computation in the monad [M]: it threads
      the process state [sys] and either returns or raises, and the state
      reached when an exception leaves a block is kept, as in Python;
    - everything outside the repository that the code talks to (the
      subprocess, the mcp library's context managers, the wait on the
      future) answers through a [World] record, over which the theorems
      quantify, and every protocol-visible action is appended to a trace. *)

From stdpp Require Import gmap strings list fin_maps pretty.

#[local] Set Warnings "-register-all".
#[local] Open Scope string_scope.
#[local] Open Scope list_scope.

(** ** Python values *)

(** A finite float is kept as mantissa and binary exponent, [m * 2^e]. *)
Inductive pyval :=
| PNone
| PBool (b : bool)
| PInt (z : Z)
| PFloat (m e : Z)
| PStr (s : string)
| PList (l : list pyval)
| PDict (m : gmap string pyval).

(** Truth value testing, as used by [if x:] and [not x]. *)
Definition truthy (v : pyval) : bool :=
  match v with
  | PNone => false
  | PBool b => b
  | PInt z => negb (z =? 0)%Z
  | PFloat m _ => negb (m =? 0)%Z
  | PStr s => negb (String.eqb s "")
  | PList l => match l with [] => false | _ :: _ => true end
  | PDict m => negb (bool_decide (m = ∅))
  end.

(** An exception object: its class name, [str(e)], and whether its class
    derives from [Exception].  What does not ([asyncio.CancelledError],
    [BaseExceptionGroup], [KeyboardInterrupt], [SystemExit]) passes through
    [except Exception]. *)
Record exn := mk_exn {
  exn_class : string;
  exn_str : string;
  exn_is_Exception : bool
}.

(** An instance of a class deriving from [Exception]. *)
Definition Exception (cls msg : string) : exn := mk_exn cls msg true.


Definition AttributeError (obj attr : string) : exn :=
  Exception "AttributeError"
    ("'" ++ obj ++ "' object has no attribute '" ++ attr ++ "'")%string.

(** [future.result(timeout=120)] raises the timeout error with no argument,
    so its [str] is empty. *)
Definition TimeoutError : exn := Exception "TimeoutError" "".

(** ** The mcp library objects the client handles *)

Record StdioServerParameters := {
  sp_command : string;
  sp_args : list string;
  sp_env : gmap string string
}.

(** What an [AsyncExitStack] holds: the exit callback of the stdio transport
    or of the client session of the [n]-th launch. *)
Inductive resource :=
| Transport (n : nat)
| Session (n : nat).

Record Tool := {
  tool_name : string;
  tool_description : option string;
  tool_inputSchema : pyval
}.

(** A content item of a tool result: [content.type], [content.text] when the
    attribute exists, and [str(content)]. *)
Record Content := {
  content_type : string;
  content_text : option string;
  content_str : string
}.

Record ListToolsResult := { tools : list Tool }.
Record CallToolResult := { content : list Content }.

(** ** Trace of protocol-visible actions *)

Inductive event :=
| EvLaunch (p : StdioServerParameters)
| EvSessionEnter (n : nat)
| EvInitialize (n : nat)
| EvRelease (r : resource)
| EvListTools (n : nat)
| EvCallTool (n : nat) (name arguments : pyval).

Definition is_launch (ev : event) : bool :=
  match ev with EvLaunch _ => true | _ => false end.

Definition is_release (ev : event) : bool :=
  match ev with EvRelease _ => true | _ => false end.

(** Number of subprocess launches in a trace. *)
Fixpoint launch_count (tr : list event) : nat :=
  match tr with
  | [] => 0
  | ev :: tr' => (if is_launch ev then 1 else 0) + launch_count tr'
  end.

(** ** The environment of the process *)

(** Outcome of one exit callback run by [AsyncExitStack.__aexit__]: it
    returns (a true value suppresses the pending exception) or raises. *)
Inductive exit_outcome :=
| ExitOk (suppress : bool)
| ExitRaises (e : exn).

Record World := {
  (** [os.environ] *)
  os_environ : gmap string string;
  (** [stdio_client(params).__aenter__] of the [n]-th launch: [None] when the
      transport opens. *)
  stdio_client_enter : StdioServerParameters → nat → option exn;
  (** [ClientSession(read, write)] and its [__aenter__]. *)
  ClientSession_enter : nat → option exn;
  (** [session.initialize()] *)
  session_initialize : nat → option exn;
  (** the exit callback of a resource, given the pending exception *)
  resource_exit : resource → option exn → exit_outcome;
  (** [session.list_tools()] on session [n] during submission [i] *)
  session_list_tools : nat → nat → exn + ListToolsResult;
  (** [session.call_tool(name, arguments)] *)
  session_call_tool : nat → nat → pyval → pyval → exn + CallToolResult;
  (** whether the wait of submission [i] runs into the timeout *)
  wait_times_out : nat → bool
}.

(** ** Process state *)

Record MCPClient := {
  command : string;
  args : list string;
  env : gmap string string;
  session : option nat;
  exit_stack : option (list resource)
}.

(** [MCPClient.__init__]; [env or {}] is [∅] when no mapping is given. *)
Definition MCPClient_init (command : string) (args : list string)
    (env : option (gmap string string)) : MCPClient :=
  {| command := command; args := args; env := default ∅ env;
     session := None; exit_stack := None |}.

Record sys := {
  client : MCPClient;
  launches : nat;
  submitted : nat;
  trace : list event
}.

Definition set_session (v : option nat) (c : MCPClient) : MCPClient :=
  {| command := command c; args := args c; env := env c;
     session := v; exit_stack := exit_stack c |}.

Definition set_exit_stack (v : option (list resource)) (c : MCPClient) : MCPClient :=
  {| command := command c; args := args c; env := env c;
     session := session c; exit_stack := v |}.

Definition with_client (f : MCPClient → MCPClient) (s : sys) : sys :=
  {| client := f (client s); launches := launches s;
     submitted := submitted s; trace := trace s |}.

Definition with_trace (tr : list event) (s : sys) : sys :=
  {| client := client s; launches := launches s;
     submitted := submitted s; trace := tr |}.

Definition emit (ev : event) (s : sys) : sys :=
  with_trace (trace s ++ [ev]) s.

Definition init_sys (c : MCPClient) : sys :=
  {| client := c; launches := 0; submitted := 0; trace := [] |}.

(** ** Computations that may raise *)

Definition M (A : Type) : Type := sys → (exn + A) * sys.

Definition ret {A} (a : A) : M A := λ s, (inr a, s).

Definition raise {A} (e : exn) : M A := λ s, (inl e, s).

Definition bind {A B} (m : M A) (k : A → M B) : M B :=
  λ s, match m s with
       | (inl e, s') => (inl e, s')
       | (inr a, s') => k a s'
       end.

(** [try: body except Exception as e: handler e]: an exception whose
    class does not derive from [Exception] is not caught. *)
Definition try_except {A} (body : M A) (handler : exn → M A) : M A :=
  λ s, match body s with
       | (inl e, s') => if exn_is_Exception e then handler e s' else (inl e, s')
       | (inr a, s') => (inr a, s')
       end.

Definition get_self : M MCPClient := λ s, (inr (client s), s).

Definition modify_self (f : MCPClient → MCPClient) : M unit :=
  λ s, (inr tt, with_client f s).

Definition tell (ev : event) : M unit := λ s, (inr tt, emit ev s).

Declare Scope py_scope.
Delimit Scope py_scope with py.
Notation "x <- c ;; k" := (bind c (λ x, k))
  (at level 100, c at next level, right associativity) : py_scope.
Notation "c ;;; k" := (bind c (λ _, k))
  (at level 100, right associativity) : py_scope.
#[local] Open Scope py_scope.

Module mcp_client.
Section WithWorld.
Context (W : World).

(** *** AsyncExitStack *)

(** The loop of [AsyncExitStack.__aexit__]: callbacks are popped last-in
    first-out; a raising callback replaces the pending exception, a
    callback returning a true value clears it.  The list is the stack with
    its top first. *)
Fixpoint run_exit_callbacks (cbs : list resource) (pending : option exn)
    (tr : list event) : option exn * list event :=
  match cbs with
  | [] => (pending, tr)
  | r :: rest =>
      let tr' := tr ++ [EvRelease r] in
      match resource_exit W r pending with
      | ExitRaises e => run_exit_callbacks rest (Some e) tr'
      | ExitOk suppress =>
          run_exit_callbacks rest (if suppress then None else pending) tr'
      end
  end.

(** [await self.exit_stack.aclose()]: the stack is drained whether or not
    a callback raises; the pending exception, if any, is raised at the
    end. *)
Definition aclose : M unit :=
  λ s, match exit_stack (client s) with
       | None => (inl (AttributeError "NoneType" "aclose"), s)
       | Some cbs =>
           let '(pending, tr) := run_exit_callbacks cbs None (trace s) in
           let s' := with_trace tr (with_client (set_exit_stack (Some [])) s) in
           match pending with
           | Some e => (inl e, s')
           | None => (inr tt, s')
           end
       end.

(** [await self.exit_stack.enter_async_context(cm)]: the exit callback of
    [cm] is pushed only when its [__aenter__] returns. *)
Definition enter_async_context {A} (aenter : M A) (cb : A → resource) : M A :=
  self <- get_self ;;
  match exit_stack self with
  | None => raise (AttributeError "NoneType" "enter_async_context")
  | Some _ =>
      a <- aenter ;;
      modify_self (λ c, set_exit_stack (option_map (cons (cb a)) (exit_stack c)) c) ;;;
      ret a
  end.

(** [stdio_client(server_params).__aenter__]: spawns the subprocess. *)
Definition stdio_client (server_params : StdioServerParameters) : M nat :=
  λ s, let n := launches s in
       let s' := emit (EvLaunch server_params)
                   {| client := client s; launches := S n;
                      submitted := submitted s; trace := trace s |} in
       match stdio_client_enter W server_params n with
       | Some e => (inl e, s')
       | None => (inr n, s')
       end.

(** [ClientSession(read, write).__aenter__] over transport [n]. *)
Definition ClientSession (n : nat) : M nat :=
  tell (EvSessionEnter n) ;;;
  match ClientSession_enter W n with
  | Some e => raise e
  | None => ret n
  end.

(** [await self.session.initialize()] *)
Definition initialize : M unit :=
  self <- get_self ;;
  match session self with
  | None => raise (AttributeError "NoneType" "initialize")
  | Some n =>
      tell (EvInitialize n) ;;;
      match session_initialize W n with
      | Some e => raise e
      | None => ret tt
      end
  end.

(** *** The methods of [MCPClient], called on the global [mcp_client] *)

Definition _ensure_connection : M unit :=
  self <- get_self ;;
  match session self with
  | None =>
      (* server_env = os.environ.copy(); server_env.update(self.env) *)
      let server_env := env self ∪ os_environ W in
      let server_params :=
        {| sp_command := command self; sp_args := args self;
           sp_env := server_env |} in
      modify_self (set_exit_stack (Some [])) ;;;
      try_except
        (stdio_transport <- enter_async_context (stdio_client server_params) Transport ;;
         sess <- enter_async_context (ClientSession stdio_transport) Session ;;
         modify_self (set_session (Some sess)) ;;;
         initialize)
        (λ e,
           self' <- get_self ;;
           (match exit_stack self' with
            | Some _ => aclose ;;; modify_self (set_exit_stack None)
            | None => ret tt
            end) ;;;
           modify_self (set_session None) ;;;
           raise e)
  | Some _ => ret tt
  end.

Definition list_tools : M ListToolsResult :=
  _ensure_connection ;;;
  self <- get_self ;;
  match session self with
  | None => raise (AttributeError "NoneType" "list_tools")
  | Some n =>
      tell (EvListTools n) ;;;
      λ s, (session_list_tools W n (submitted s) , s)
  end.

Definition call_tool (tool_name arguments : pyval) : M CallToolResult :=
  _ensure_connection ;;;
  self <- get_self ;;
  match session self with
  | None => raise (AttributeError "NoneType" "call_tool")
  | Some n =>
      tell (EvCallTool n tool_name arguments) ;;;
      λ s, (session_call_tool W n (submitted s) tool_name arguments, s)
  end.

Definition close : M unit :=
  self <- get_self ;;
  (match exit_stack self with
   | Some _ => aclose
   | None => ret tt
   end) ;;;
  modify_self (set_session None) ;;;
  modify_self (set_exit_stack None).

End WithWorld.
End mcp_client.


(** ** The request bridge and the Flask routes *)

(** What [request.json] raises when the body is not JSON: one of two
    werkzeug HTTP exceptions, both instances of [Exception]. *)
Inductive json_error :=
| BadRequest (description : string)
| UnsupportedMediaType (description : string).

Definition json_error_exn (e : json_error) : exn :=
  match e with
  | BadRequest d => Exception "BadRequest" ("400 Bad Request: " ++ d)%string
  | UnsupportedMediaType d =>
      Exception "UnsupportedMediaType" ("415 Unsupported Media Type: " ++ d)%string
  end.

(** What a route needs of a request: [request.json]. *)
Record request := { request_json : json_error + pyval }.

(** [jsonify(body), status] *)
Definition response : Type := pyval * Z.

Definition type_name (v : pyval) : string :=
  match v with
  | PNone => "NoneType"
  | PBool _ => "bool"
  | PInt _ => "int"
  | PFloat _ _ => "float"
  | PStr _ => "str"
  | PList _ => "list"
  | PDict _ => "dict"
  end.

(** [data.get(key, dflt)]: only a dict has the method. *)
Definition dict_get (data : pyval) (key : string) (dflt : pyval) : M pyval :=
  match data with
  | PDict m => ret (default dflt (m !! key))
  | _ => raise (AttributeError (type_name data) "get")
  end.

Definition error_body (msg : string) : pyval :=
  PDict {[ "error" := PStr msg ]}.

Module app.
Section WithWorld.
Context (W : World).

(** What [future.result()] raises for what the coroutine raised: a task
    that ended with [asyncio.CancelledError] cancels the future, whose
    [result()] then raises [concurrent.futures.CancelledError], an instance
    of [Exception] with no message; any other exception is raised as it
    is. *)
Definition future_exception (e : exn) : exn :=
  if negb (exn_is_Exception e) && String.eqb (exn_class e) "CancelledError"
  then Exception "CancelledError" ""
  else e.

(** [run_async]: the coroutine is handed to the background loop and the
    caller waits for its future.  The loop and its thread
    ([get_event_loop]), the wait and its 120 second bound are outside the
    embedding: [wait_times_out] says whether the caller gives up, in which
    case it gets the timeout error while the coroutine, which is not
    cancelled, still has its effect on the shared client. *)
Definition run_async {A} (coro : M A) : M A :=
  λ s, let i := submitted s in
       let '(r, s1) := coro s in
       let s2 := {| client := client s1; launches := launches s1;
                    submitted := S (submitted s1); trace := trace s1 |} in
       if wait_times_out W i then (inl TimeoutError, s2)
       else (match r with inl e => inl (future_exception e) | inr a => inr a end, s2).

Definition tool_json (tool : Tool) : pyval :=
  PDict {[ "name" := PStr (tool_name tool);
           "description" := PStr (default "" (tool_description tool));
           "inputSchema" := tool_inputSchema tool ]}.

Definition content_json (c : Content) : pyval :=
  PDict {[ "type" := PStr (content_type c);
           "text" := PStr (default (content_str c) (content_text c)) ]}.

(** Route [/mcp/list_tools] *)
Definition list_tools (req : request) : M response :=
  try_except
    (result <- run_async (mcp_client.list_tools W) ;;
     ret (PDict {[ "tools" := PList (tool_json <$> tools result) ]}, 200%Z))
    (λ e, ret (error_body (exn_str e), 500%Z)).

(** Route [/mcp/call_tool] *)
Definition call_tool (req : request) : M response :=
  try_except
    (data <- (λ s, (match request_json req with
                    | inl e => inl (json_error_exn e)
                    | inr data => inr data
                    end, s)) ;;
     tool_name <- dict_get data "name" PNone ;;
     tool_args <- dict_get data "arguments" (PDict ∅) ;;
     if negb (truthy tool_name)
     then ret (error_body "Tool name is required", 400%Z)
     else
       result <- run_async (mcp_client.call_tool W tool_name tool_args) ;;
       ret (PDict {[ "content" := PList (content_json <$> content result) ]}, 200%Z))
    (λ e, ret (error_body (exn_str e), 500%Z)).

(** The routes of the application. *)
Inductive route := ListTools | CallTool.

Definition dispatch (r : route) : request → M response :=
  match r with
  | ListTools => list_tools
  | CallTool => call_tool
  end.

(** The serving process: requests are handled one after the other; a
    handler that raised would end the run with [inl]. *)
Fixpoint serve (reqs : list (route * request)) : M (list response) :=
  match reqs with
  | [] => ret []
  | (r, req) :: rest =>
      resp <- dispatch r req ;;
      resps <- serve rest ;;
      ret (resp :: resps)
  end.

End WithWorld.
End app.


(** ** Configuration *)

(** What [yaml.safe_load] returns for a configuration document: nothing for
    an empty document, or a mapping with string keys.  Documents whose top
    level is a scalar or a sequence are outside the embedding. *)
Inductive yaml_doc :=
| YNull
| YMapping (m : gmap string pyval).

(** The file [config.yml] next to the package.  [LoadFails e]: opening or
    parsing it raised [e], an instance of [Exception], which the handler of
    [load_config] caught. *)
Inductive config_file :=
| NoFile
| LoadFails (e : exn)
| Loaded (doc : yaml_doc).

Definition KeyError (k : string) : exn := Exception "KeyError" ("'" ++ k ++ "'")%string.

Definition TypeError (msg : string) : exn := Exception "TypeError" msg.

(** [d[k]] *)
Definition getitem (d : pyval) (k : string) : exn + pyval :=
  match d with
  | PDict m =>
      match m !! k with
      | Some v => inr v
      | None => inl (KeyError k)
      end
  | _ => inl (TypeError (type_name d ++ " is not subscriptable by a str"))
  end.

(** [config['server'][k] = v] *)
Definition setitem_server (config : gmap string pyval) (k : string) (v : pyval)
    : exn + gmap string pyval :=
  match config !! "server" with
  | None => inl (KeyError "server")
  | Some (PDict srv) => inr (<["server" := PDict (<[k := v]> srv)]> config)
  | Some other =>
      inl (TypeError (type_name other ++ " does not support item assignment"))
  end.

Definition default_server : gmap string pyval :=
  {[ "name" := PStr "generic-mcp-server";
     "command" := PStr "python";
     "args" := PList [PStr "server.py"];
     "env" := PDict ∅;
     "port" := PInt 3050 ]}.

Definition default_config : gmap string pyval :=
  {[ "server" := PDict default_server ]}.

(** [os.getenv(k)] used as a condition: set and not empty. *)
Definition getenv_truthy (environ : gmap string string) (k : string) : option string :=
  match environ !! k with
  | Some v => if String.eqb v "" then None else Some v
  | None => None
  end.

Section Config.
(** [json.loads] and [int] on a string, each returning or raising. *)
Context (json_loads : string → exn + pyval) (int : string → exn + Z).

Definition override_server (environ : gmap string string) (var key : string)
    (parse : string → exn + pyval) (config : gmap string pyval)
    : exn + gmap string pyval :=
  match getenv_truthy environ var with
  | None => inr config
  | Some raw =>
      match parse raw with
      | inl e => inl e
      | inr v => setitem_server config key v
      end
  end.

Definition load_config (file : config_file) (environ : gmap string string)
    : exn + gmap string pyval :=
  let config := default_config in
  (* if os.path.exists(config_path): try: ... config.update(loaded_config) *)
  let config :=
    match file with
    | Loaded (YMapping m) => if bool_decide (m = ∅) then config else m ∪ config
    | Loaded YNull | LoadFails _ | NoFile => config
    end in
  match override_server environ "MCP_COMMAND" "command" (λ v, inr (PStr v)) config with
  | inl e => inl e
  | inr config =>
      match override_server environ "MCP_ARGS" "args" json_loads config with
      | inl e => inl e
      | inr config =>
          override_server environ "PORT" "port"
            (λ v, match int v with inl e => inl e | inr z => inr (PInt z) end) config
      end
  end.

(** The module-level reads [PORT = CONFIG['server']['port']] and
    [SERVER_NAME = CONFIG['server']['name']]. *)
Definition server_item (CONFIG : gmap string pyval) (k : string) : exn + pyval :=
  match getitem (PDict CONFIG) "server" with
  | inl e => inl e
  | inr srv => getitem srv k
  end.

Definition PORT (CONFIG : gmap string pyval) : exn + pyval := server_item CONFIG "port".

Definition SERVER_NAME (CONFIG : gmap string pyval) : exn + pyval := server_item CONFIG "name".

(** The three-level precedence as the specification words it, field by
    field of the [server] record: an environment override when there is
    one, else the value the file gives to the field, else the default. *)
Definition env_value (environ : gmap string string) (field : string) : option (exn + pyval) :=
  if String.eqb field "command" then
    (λ v, inr (PStr v)) <$> getenv_truthy environ "MCP_COMMAND"
  else if String.eqb field "args" then
    json_loads <$> getenv_truthy environ "MCP_ARGS"
  else if String.eqb field "port" then
    (λ v, match int v with inl e => inl e | inr z => inr (PInt z) end)
      <$> getenv_truthy environ "PORT"
  else None.

Definition file_value (file : config_file) (field : string) : option pyval :=
  match file with
  | Loaded (YMapping m) =>
      match m !! "server" with
      | Some (PDict srv) => srv !! field
      | _ => None
      end
  | _ => None
  end.

Definition precedence (file : config_file) (environ : gmap string string)
    (field : string) : option (exn + pyval) :=
  match env_value environ field with
  | Some v => Some v
  | None =>
      match file_value file field with
      | Some v => Some (inr v)
      | None => inr <$> default_server !! field
      end
  end.

End Config.


(** The five fields of the [server] record. *)
Definition server_fields : list string := ["name"; "command"; "args"; "env"; "port"].

(** A file whose [server] entry, if it has one, is a mapping that gives all
    five fields. *)
Definition file_complete (file : config_file) : Prop :=
  match file with
  | Loaded (YMapping m) =>
      match m !! "server" with
      | Some (PDict srv) => ∀ field, field ∈ server_fields → is_Some (srv !! field)
      | Some _ => False
      | None => True
      end
  | _ => True
  end.

(** ** Sequences of client calls *)

Inductive client_call :=
| CallListTools
| CallCallTool (tool_name arguments : pyval).

Definition run_call (W : World) (c : client_call) (s : sys) : sys :=
  match c with
  | CallListTools => (mcp_client.list_tools W s).2
  | CallCallTool name arguments => (mcp_client.call_tool W name arguments s).2
  end.

Definition run_calls (W : World) (cs : list client_call) (s : sys) : sys :=
  foldl (λ s c, run_call W c s) s cs.

(** ** Concrete environments *)

Definition echo_tool : Tool :=
  {| tool_name := "echo"; tool_description := None;
     tool_inputSchema := PDict {[ "type" := PStr "object" ]} |}.

Definition echo_content : Content :=
  {| content_type := "text"; content_text := Some "ok"; content_str := "ok" |}.

(** A world given by how the connect steps and the exit callbacks of each
    launch behave; an established session answers every request. *)
Definition world_of (environ : gmap string string)
    (launch enter init : nat → option exn)
    (on_exit : resource → exit_outcome) : World :=
  {| os_environ := environ;
     stdio_client_enter := λ _ n, launch n;
     ClientSession_enter := enter;
     session_initialize := init;
     resource_exit := λ r _, on_exit r;
     session_list_tools := λ _ _, inr {| tools := [echo_tool] |};
     session_call_tool := λ _ _ _ _, inr {| content := [echo_content] |};
     wait_times_out := λ _, false |}.

Definition always_ok : nat → option exn := λ _, None.

Definition quiet_exit : resource → exit_outcome := λ _, ExitOk false.

Definition example_environ : gmap string string :=
  {[ "PATH" := "/usr/bin"; "LANG" := "C" ]}.

(** Everything works. *)
Definition healthy_world : World :=
  world_of example_environ always_ok always_ok always_ok quiet_exit.

Definition handshake_error : exn := Exception "McpError" "Connection closed".

Definition exit_error : exn := Exception "ProcessLookupError" "no such process".

(** The first handshake fails, the later ones work, releases are quiet. *)
Definition flaky_world : World :=
  world_of example_environ always_ok always_ok
    (λ n, match n with 0 => Some handshake_error | _ => None end) quiet_exit.

(** The first handshake fails and the exit callback of the transport
    raises while the resources are released. *)
Definition raising_exit_world : World :=
  world_of example_environ always_ok always_ok
    (λ n, match n with 0 => Some handshake_error | _ => None end)
    (λ r, match r with Transport _ => ExitRaises exit_error | Session _ => ExitOk false end).

(** The subprocess cannot be launched at all. *)
Definition launch_error : exn := Exception "FileNotFoundError" "No such file or directory".

Definition dead_world : World :=
  world_of example_environ (λ _, Some launch_error) always_ok always_ok quiet_exit.

Definition example_client : MCPClient :=
  MCPClient_init "echo_mcp_server" ["--stub"] (Some {[ "LANG" := "en_US.UTF-8" ]}).

(** A client holding the session of launch 0, as after a first successful
    call. *)
Definition connected_client : MCPClient :=
  set_exit_stack (Some [Session 0; Transport 0]) (set_session (Some 0) example_client).

Definition connected_sys : sys :=
  {| client := connected_client; launches := 1; submitted := 1;
     trace := [] |}.

Definition empty_body : request := {| request_json := inr (PDict ∅) |}.

Definition echo_request : request :=
  {| request_json := inr (PDict {[ "name" := PStr "echo" ]}) |}.

(** A [config.yml] that sets only the command of the server. *)
Definition partial_file : config_file :=
  Loaded (YMapping {[ "server" := PDict {[ "command" := PStr "node" ]} ]}).

(** A [config.yml] that sets all five fields. *)
Definition full_file : config_file :=
  Loaded (YMapping {[ "server" := PDict
    {[ "name" := PStr "airbnb"; "command" := PStr "npx";
       "args" := PList [PStr "-y"; PStr "@openbnb/mcp-server-airbnb"];
       "env" := PDict ∅; "port" := PInt 4000 ]} ]}).

(** Parsers for the configuration examples: the one JSON text and the one
    integer text they use. *)
Definition example_json_loads (s : string) : exn + pyval :=
  if String.eqb s "[1, 2]" then inr (PList [PInt 1; PInt 2])
  else inl (Exception "JSONDecodeError" "Expecting value").

Definition example_int (s : string) : exn + Z :=
  if String.eqb s "8080" then inr 8080%Z
  else inl (Exception "ValueError" "invalid literal for int()").


(** ** Sequences of client operations, with [close] *)

Inductive client_op :=
| OpEnsure
| OpListTools
| OpCallTool (tool_name arguments : pyval)
| OpClose.

Definition run_op (W : World) (op : client_op) (s : sys) : sys :=
  match op with
  | OpEnsure => (mcp_client._ensure_connection W s).2
  | OpListTools => (mcp_client.list_tools W s).2
  | OpCallTool name arguments => (mcp_client.call_tool W name arguments s).2
  | OpClose => (mcp_client.close W s).2
  end.

Definition run_ops (W : World) (ops : list client_op) (s : sys) : sys :=
  foldl (λ s op, run_op W op s) s ops.

(** ** Resources open according to a trace *)

Definition resource_eqb (r1 r2 : resource) : bool :=
  match r1, r2 with
  | Transport a, Transport b => Nat.eqb a b
  | Session a, Session b => Nat.eqb a b
  | _, _ => false
  end.

(** Replaying a trace against the world: the number of launches so far and
    the resources entered and not yet exited, last entered first.  A launch
    or a session entry opens its resource when the world let it succeed; a
    release, whether its callback returned or raised, closes it. *)
Definition replay_step (W : World) (st : nat * list resource) (ev : event)
    : nat * list resource :=
  match ev with
  | EvLaunch p =>
      (S st.1, match stdio_client_enter W p st.1 with
               | None => Transport st.1 :: st.2
               | Some _ => st.2
               end)
  | EvSessionEnter n =>
      (st.1, match ClientSession_enter W n with
             | None => Session n :: st.2
             | Some _ => st.2
             end)
  | EvRelease r => (st.1, List.filter (λ r', negb (resource_eqb r r')) st.2)
  | EvInitialize _ | EvListTools _ | EvCallTool _ _ _ => st
  end.

Definition replay (W : World) (tr : list event) : nat * list resource :=
  foldl (replay_step W) (0, []) tr.

(** The callbacks an exit stack holds; none when there is no stack. *)
Definition held (c : MCPClient) : list resource := default [] (exit_stack c).

(** Every resource open according to the trace is a callback of the exit
    stack, in stack order, and the stack is absent (then there is no
    session), drained, or holds the session of one launch above its
    transport (then that session is the client's). *)
Definition owns (W : World) (s : sys) : Prop :=
  replay W (trace s) = (launches s, held (client s))
  ∧ match exit_stack (client s) with
    | None => session (client s) = None
    | Some [] => True
    | Some [Session n; Transport m] => n = m ∧ session (client s) = Some n
    | Some _ => False
    end.

(** Session and exit stack are set together or absent together. *)
Definition paired (c : MCPClient) : Prop :=
  match session c with
  | None => exit_stack c = None
  | Some n => exit_stack c = Some [Session n; Transport n]
  end.

(** Where the [except] block of [_ensure_connection] leaves the process
    when the connect step failed with [e], the callbacks [cbs] were on the
    stack and the session attribute was [sv]: the callbacks run; if one of
    them leaves an exception pending, that exception is raised and the
    attributes stay, else both are cleared and [e] is raised again. *)
Definition except_outcome (W : World) (s : sys) (e : exn) (sv : option nat)
    (cbs : list resource) (tr : list event) : (exn + unit) * sys :=
  match mcp_client.run_exit_callbacks W cbs None tr with
  | (Some e', tr') =>
      (inl e',
       {| client := set_session sv (set_exit_stack (Some []) (client s));
          launches := S (launches s); submitted := submitted s; trace := tr' |})
  | (None, tr') =>
      (inl e,
       {| client := set_session None (set_exit_stack None (client s));
          launches := S (launches s); submitted := submitted s; trace := tr' |})
  end.

(** Where [_ensure_connection] leaves the process when the connect step
    failed with [e]: an instance of [Exception] goes through the [except]
    block; anything else leaves the method at once, with the callbacks still
    on the stack and the session attribute as it is. *)
Definition failure_outcome (W : World) (s : sys) (e : exn) (sv : option nat)
    (cbs : list resource) (tr : list event) : (exn + unit) * sys :=
  if exn_is_Exception e then except_outcome W s e sv cbs tr
  else (inl e,
        {| client := set_session sv (set_exit_stack (Some cbs) (client s));
           launches := S (launches s); submitted := submitted s; trace := tr |}).

(** The connect steps of the world fail only with instances of
    [Exception]. *)
Definition connect_raises_Exception (W : World) : Prop :=
  (∀ p n e, stdio_client_enter W p n = Some e → exn_is_Exception e = true)
  ∧ (∀ n e, ClientSession_enter W n = Some e → exn_is_Exception e = true)
  ∧ (∀ n e, session_initialize W n = Some e → exn_is_Exception e = true).


(** ** The background event loop *)

(** The module globals [_loop] and [_loop_thread].  A loop is named by its
    ordinal; a thread is named by the loop whose [run_forever] it runs. *)
Record bridge := {
  _loop : option nat;
  _loop_thread : option nat;
  loops_created : nat
}.

Definition bridge_init : bridge :=
  {| _loop := None; _loop_thread := None; loops_created := 0 |}.

(** [get_event_loop], for one caller at a time; [is_running] is what
    [loop.is_running()] answers at the time of the call. *)
Definition get_event_loop (is_running : nat → bool) (b : bridge) : nat * bridge :=
  let fresh :=
    let l := loops_created b in
    (l, {| _loop := Some l; _loop_thread := Some l; loops_created := S l |}) in
  match _loop b with
  | None => fresh
  | Some l => if negb (is_running l) then fresh else (l, b)
  end.

(** [n] calls in a row, the [i]-th of them seeing [is_running i]; the loops
    returned, in order, and the globals at the end. *)
Fixpoint get_event_loop_calls (is_running : nat → nat → bool) (i n : nat)
    (b : bridge) : list nat * bridge :=
  match n with
  | 0 => ([], b)
  | S n' =>
      let '(l, b1) := get_event_loop (is_running i) b in
      let '(ls, b2) := get_event_loop_calls is_running (S i) n' b1 in
      (l :: ls, b2)
  end.

(** ** Module start and the health route *)

(** [a or b] *)
Definition py_or (a b : pyval) : pyval := if truthy a then a else b.

(** The globals set when the module is imported, in the order of the
    source; the last three are what [MCPClient.__init__] stores in
    [mcp_client]. *)
Record globals := {
  g_CONFIG : gmap string pyval;
  g_PORT : pyval;
  g_SERVER_NAME : pyval;
  g_command : pyval;
  g_args : pyval;
  g_env : pyval
}.

Definition module_globals (CONFIG : gmap string pyval) : exn + globals :=
  match PORT CONFIG with
  | inl e => inl e
  | inr port =>
  match SERVER_NAME CONFIG with
  | inl e => inl e
  | inr name =>
  match server_item CONFIG "command" with
  | inl e => inl e
  | inr command =>
  match server_item CONFIG "args" with
  | inl e => inl e
  | inr args =>
  match server_item CONFIG "env" with
  | inl e => inl e
  | inr env =>
      inr {| g_CONFIG := CONFIG; g_PORT := port; g_SERVER_NAME := name;
             g_command := command; g_args := args;
             g_env := py_or env (PDict ∅) |}
  end end end end end.

Section Health.
(** [str] of a float, a list or a dict, which the embedding does not print. *)
Context (str_other : pyval → string).

(** What an f-string puts for [{v}]. *)
Definition format_value (v : pyval) : string :=
  match v with
  | PStr s => s
  | PInt z => pretty z
  | PBool true => "True"
  | PBool false => "False"
  | PNone => "None"
  | PFloat _ _ | PList _ | PDict _ => str_other v
  end.

(** Route [/health] *)
Definition health (CONFIG : gmap string pyval) (SERVER_NAME : pyval) : exn + response :=
  match server_item CONFIG "command" with
  | inl e => inl e
  | inr command =>
      match server_item CONFIG "args" with
      | inl e => inl e
      | inr args =>
          inr (PDict {[ "status" := PStr "healthy";
                        "service" := PStr (format_value SERVER_NAME ++ "-http-wrapper")%string;
                        "mcp_server" := PDict {[ "command" := command; "args" := args ]} ]},
               200%Z)
      end
  end.

End Health.

(** ** Further concrete inputs *)

(** Releases always raise. *)
Definition hostile_exit_world : World :=
  world_of example_environ always_ok always_ok always_ok
    (λ _, ExitRaises exit_error).

(** A body that is the JSON value [null]. *)
Definition null_body : request := {| request_json := inr PNone |}.



(** A body that is a JSON array. *)
Definition array_body : request := {| request_json := inr (PList []) |}.

(** A body whose arguments are [null]. *)
Definition null_arguments_request : request :=
  {| request_json :=
       inr (PDict {[ "name" := PStr "echo"; "arguments" := PNone ]}) |}.



(** * Properties *)

(** ** Proof support *)

Ltac unfold_py :=
  unfold mcp_client.list_tools, mcp_client.call_tool, mcp_client.close,
    mcp_client._ensure_connection, mcp_client.initialize,
    mcp_client.enter_async_context, mcp_client.stdio_client,
    mcp_client.ClientSession, mcp_client.aclose,
    try_except, bind, ret, raise, get_self, modify_self, tell, emit,
    with_client, with_trace in *.

Lemma launch_count_app (tr1 tr2 : list event) :
  launch_count (tr1 ++ tr2) = launch_count tr1 + launch_count tr2.
Proof. induction tr1 as [|ev tr1 IH]; simpl; [done|]. rewrite IH. lia. Qed.

(** ** The connect sequence in one equation *)

Lemma run_exit_callbacks_trace (W : World) (cbs : list resource)
    (pending : option exn) (tr : list event) :
  (mcp_client.run_exit_callbacks W cbs pending tr).2 = tr ++ (EvRelease <$> cbs).
Proof.
  revert pending tr. induction cbs as [|r cbs IH]; intros pending tr; simpl.
  - by rewrite app_nil_r.
  - destruct (resource_exit W r pending) as [b|e]; rewrite IH;
      by rewrite <- app_assoc.
Qed.

Lemma run_exit_callbacks_quiet (W : World) (cbs : list resource) (tr : list event) :
  (∀ r pending, ∃ b, resource_exit W r pending = ExitOk b) →
  (mcp_client.run_exit_callbacks W cbs None tr).1 = None.
Proof.
  intros Hquiet. revert tr. induction cbs as [|r cbs IH]; intros tr; simpl; [done|].
  destruct (Hquiet r None) as [b ->]. destruct b; apply IH.
Qed.

(** [_ensure_connection] on a client without session, by the outcome of
    the three connect steps of the launch. *)
Lemma ensure_connection_unfold (W : World) (s : sys) :
  session (client s) = None →
  let n := launches s in
  let p := {| sp_command := command (client s); sp_args := args (client s);
              sp_env := env (client s) ∪ os_environ W |} in
  mcp_client._ensure_connection W s =
    match stdio_client_enter W p n with
    | Some e => failure_outcome W s e None [] (trace s ++ [EvLaunch p])
    | None =>
        match ClientSession_enter W n with
        | Some e =>
            failure_outcome W s e None [Transport n]
              (trace s ++ [EvLaunch p; EvSessionEnter n])
        | None =>
            match session_initialize W n with
            | Some e =>
                failure_outcome W s e (Some n) [Session n; Transport n]
                  (trace s ++ [EvLaunch p; EvSessionEnter n; EvInitialize n])
            | None =>
                (inr tt,
                 {| client := set_session (Some n)
                                (set_exit_stack (Some [Session n; Transport n]) (client s));
                    launches := S n; submitted := submitted s;
                    trace := trace s ++ [EvLaunch p; EvSessionEnter n; EvInitialize n] |})
            end
        end
    end.
Proof.
  intros Hs n p. subst n p. unfold failure_outcome, except_outcome. unfold_py.
  rewrite Hs. simpl.
  destruct (stdio_client_enter W _ (launches s)) as [e1|]; simpl.
  { destruct (exn_is_Exception e1); simpl;
      unfold set_session, set_exit_stack; simpl; by rewrite ?Hs. }
  destruct (ClientSession_enter W (launches s)) as [e2|]; simpl.
  { rewrite <- !app_assoc. simpl. destruct (exn_is_Exception e2); simpl;
      [destruct (resource_exit W (Transport (launches s)) None) as [[]|e]; simpl|];
      unfold set_session, set_exit_stack; simpl; by rewrite ?Hs. }
  destruct (session_initialize W (launches s)) as [e3|]; simpl.
  { rewrite <- !app_assoc. simpl. destruct (exn_is_Exception e3); simpl;
      [destruct (resource_exit W (Session (launches s)) None) as [[]|e]; simpl;
       match goal with
       | |- context [resource_exit W (Transport (launches s)) ?q] =>
           destruct (resource_exit W (Transport (launches s)) q) as [[]|e']
       end; simpl|];
      unfold set_session, set_exit_stack; simpl;
      by rewrite <- ?app_assoc. }
  unfold set_session, set_exit_stack; simpl. by rewrite <- !app_assoc.
Qed.

(** The same when the connect steps raise only instances of [Exception]:
    every failure goes through the [except] block. *)
Lemma ensure_connection_unfold_Exception (W : World) (s : sys) :
  connect_raises_Exception W →
  session (client s) = None →
  let n := launches s in
  let p := {| sp_command := command (client s); sp_args := args (client s);
              sp_env := env (client s) ∪ os_environ W |} in
  mcp_client._ensure_connection W s =
    match stdio_client_enter W p n with
    | Some e =>
        (inl e,
         {| client := set_session None (set_exit_stack None (client s));
            launches := S n; submitted := submitted s;
            trace := trace s ++ [EvLaunch p] |})
    | None =>
        match ClientSession_enter W n with
        | Some e =>
            except_outcome W s e None [Transport n]
              (trace s ++ [EvLaunch p; EvSessionEnter n])
        | None =>
            match session_initialize W n with
            | Some e =>
                except_outcome W s e (Some n) [Session n; Transport n]
                  (trace s ++ [EvLaunch p; EvSessionEnter n; EvInitialize n])
            | None =>
                (inr tt,
                 {| client := set_session (Some n)
                                (set_exit_stack (Some [Session n; Transport n]) (client s));
                    launches := S n; submitted := submitted s;
                    trace := trace s ++ [EvLaunch p; EvSessionEnter n; EvInitialize n] |})
            end
        end
    end.
Proof.
  intros (H1 & H2 & H3) Hs n p. subst n p.
  rewrite (ensure_connection_unfold W s Hs). simpl. unfold failure_outcome.
  destruct (stdio_client_enter W _ (launches s)) as [e1|] eqn:E1.
  { by rewrite (H1 _ _ _ E1). }
  destruct (ClientSession_enter W (launches s)) as [e2|] eqn:E2.
  { by rewrite (H2 _ _ E2). }
  destruct (session_initialize W (launches s)) as [e3|] eqn:E3; [|done].
  by rewrite (H3 _ _ E3).
Qed.

(** The [except] block when no exit callback raises. *)
Lemma except_outcome_quiet (W : World) (s : sys) (e : exn) (sv : option nat)
    (cbs : list resource) (tr : list event) :
  (∀ r pending, ∃ b, resource_exit W r pending = ExitOk b) →
  except_outcome W s e sv cbs tr =
    (inl e,
     {| client := set_session None (set_exit_stack None (client s));
        launches := S (launches s); submitted := submitted s;
        trace := tr ++ (EvRelease <$> cbs) |}).
Proof.
  intros Hquiet. unfold except_outcome.
  pose proof (run_exit_callbacks_quiet W cbs tr Hquiet) as H1.
  pose proof (run_exit_callbacks_trace W cbs None tr) as H2.
  destruct (mcp_client.run_exit_callbacks W cbs None tr) as [pending tr'].
  simpl in H1, H2. by subst.
Qed.

(** With a session set, [_ensure_connection] returns at once. *)
Lemma ensure_connection_noop (W : World) (s : sys) (n : nat) :
  session (client s) = Some n →
  mcp_client._ensure_connection W s = (inr tt, s).
Proof. intros Hn. unfold_py. by rewrite Hn. Qed.

(** A call on a connected client leaves the client as it is and launches
    nothing. *)
Lemma run_call_connected (W : World) (c : client_call) (s : sys) (n : nat) :
  session (client s) = Some n →
  client (run_call W c s) = client s
  ∧ launch_count (trace (run_call W c s)) = launch_count (trace s).
Proof.
  intros Hn.
  destruct c as [|name arguments];
    unfold run_call, mcp_client.list_tools, mcp_client.call_tool, bind;
    rewrite (ensure_connection_noop W s n Hn); simpl; rewrite Hn; simpl.
  - destruct (session_list_tools W n (submitted s)); simpl;
      by rewrite launch_count_app, Nat.add_0_r.
  - destruct (session_call_tool W n (submitted s) name arguments); simpl;
      by rewrite launch_count_app, Nat.add_0_r.
Qed.

Lemma run_calls_connected (W : World) (cs : list client_call) (s : sys) (n : nat) :
  session (client s) = Some n →
  client (run_calls W cs s) = client s
  ∧ launch_count (trace (run_calls W cs s)) = launch_count (trace s).
Proof.
  revert s. induction cs as [|c cs IH]; intros s Hn; [done|].
  unfold run_calls; simpl. fold (run_calls W cs (run_call W c s)).
  destruct (run_call_connected W c s n Hn) as [Hc Ht].
  destruct (IH (run_call W c s)) as [Hc' Ht'].
  - by rewrite Hc.
  - split; congruence.
Qed.

(** When the three connect steps of the next launch work, a call on a
    client without session launches once and keeps the session. *)
Lemma run_call_connects (W : World) (c : client_call) (s : sys) :
  session (client s) = None →
  stdio_client_enter W
    {| sp_command := command (client s); sp_args := args (client s);
       sp_env := env (client s) ∪ os_environ W |} (launches s) = None →
  ClientSession_enter W (launches s) = None →
  session_initialize W (launches s) = None →
  session (client (run_call W c s)) = Some (launches s)
  ∧ launch_count (trace (run_call W c s)) = S (launch_count (trace s)).
Proof.
  intros Hs H1 H2 H3.
  destruct c as [|name arguments]; unfold run_call; unfold_py; rewrite Hs; simpl;
    rewrite H1; simpl; rewrite H2; simpl; rewrite H3; simpl.
  - destruct (session_list_tools W (launches s) (submitted s)); simpl;
      rewrite !launch_count_app; simpl; (split; [done|lia]).
  - destruct (session_call_tool W (launches s) (submitted s) name arguments);
      simpl; rewrite !launch_count_app; simpl; split; [done|lia|done|lia].
Qed.

(** ** Lazy connection: one launch *)

(** C2. For every configuration [(command, args, env)] under which the
    subprocess initializes (the three connect steps of the first launch
    work), the first call to [list_tools] or [call_tool] launches the
    subprocess exactly once and sets the session; any further calls, made
    while the session is set, launch nothing more; and [_ensure_connection]
    on a client whose session is set returns without changing the state. *)
Theorem single_launch_while_session_alive (W : World) (command : string)
    (args : list string) (env : option (gmap string string))
    (first : client_call) (later : list client_call) :
  let s0 := init_sys (MCPClient_init command args env) in
  let server_params :=
    {| sp_command := command; sp_args := args;
       sp_env := default ∅ env ∪ os_environ W |} in
  stdio_client_enter W server_params 0 = None →
  ClientSession_enter W 0 = None →
  session_initialize W 0 = None →
  launch_count (trace (run_call W first s0)) = 1
  ∧ session (client (run_call W first s0)) = Some 0
  ∧ launch_count (trace (run_calls W later (run_call W first s0))) = 1
  ∧ session (client (run_calls W later (run_call W first s0))) = Some 0
  ∧ ∀ s : sys, session (client s) ≠ None →
      mcp_client._ensure_connection W s = (inr tt, s).
Proof.
  intros s0 server_params H1 H2 H3.
  destruct (run_call_connects W first s0 eq_refl H1 H2 H3) as [Hs Hl].
  simpl in Hs, Hl.
  destruct (run_calls_connected W later _ 0 Hs) as [Hc Ht].
  repeat split.
  - exact Hl.
  - exact Hs.
  - by rewrite Ht.
  - by rewrite Hc.
  - intros s Hne. destruct (session (client s)) as [n|] eqn:E; [|done].
    by apply (ensure_connection_noop W s n).
Qed.

Lemma single_launch_while_session_alive_witness :
  launch_count (trace (run_call healthy_world CallListTools (init_sys example_client))) = 1
  ∧ launch_count (trace (run_calls healthy_world
        [CallCallTool (PStr "echo") (PDict ∅); CallListTools]
        (run_call healthy_world CallListTools (init_sys example_client)))) = 1.
Proof.
  pose proof (single_launch_while_session_alive healthy_world
    "echo_mcp_server" ["--stub"] (Some {[ "LANG" := "en_US.UTF-8" ]})
    CallListTools [CallCallTool (PStr "echo") (PDict ∅); CallListTools]
    eq_refl eq_refl eq_refl) as H.
  split; [exact (proj1 H) | exact (proj1 (proj2 (proj2 H)))].
Defined.

(** The same from any state without session, not only the first call. *)
Lemma reconnect_launches_once (W : World) (c : client_call) (later : list client_call)
    (s : sys) :
  session (client s) = None →
  stdio_client_enter W
    {| sp_command := command (client s); sp_args := args (client s);
       sp_env := env (client s) ∪ os_environ W |} (launches s) = None →
  ClientSession_enter W (launches s) = None →
  session_initialize W (launches s) = None →
  launch_count (trace (run_calls W later (run_call W c s))) = S (launch_count (trace s)).
Proof.
  intros Hs H1 H2 H3.
  destruct (run_call_connects W c s Hs H1 H2 H3) as [Hn Hl].
  destruct (run_calls_connected W later _ _ Hn) as [_ Ht]. congruence.
Qed.

(** ** The environment of the subprocess *)

(** What a call of [_ensure_connection] on a client without session puts
    on the trace, whatever the outcome of the connect steps: the launch
    comes first and is the only one. *)
Lemma ensure_connection_launches_first (W : World) (s : sys) :
  session (client s) = None →
  ∃ rest : list event,
    trace (mcp_client._ensure_connection W s).2
      = trace s ++ EvLaunch {| sp_command := command (client s);
                               sp_args := args (client s);
                               sp_env := env (client s) ∪ os_environ W |} :: rest
    ∧ launch_count rest = 0.
Proof.
  intros Hs. unfold_py. rewrite Hs. simpl.
  destruct (stdio_client_enter W _ (launches s)) as [e1|]; simpl.
  { destruct (exn_is_Exception e1); by exists []. }
  destruct (ClientSession_enter W (launches s)) as [e2|]; simpl.
  { destruct (exn_is_Exception e2); simpl;
      [destruct (resource_exit W (Transport (launches s)) None) as [[]|e]; simpl|];
      eexists; rewrite <- !app_assoc; simpl; split; done. }
  destruct (session_initialize W (launches s)) as [e3|]; simpl.
  { destruct (exn_is_Exception e3); simpl;
      [destruct (resource_exit W (Session (launches s)) None) as [[]|e]; simpl;
       match goal with
       | |- context [resource_exit W (Transport (launches s)) ?p] =>
           destruct (resource_exit W (Transport (launches s)) p) as [[]|e']
       end; simpl|];
      eexists; rewrite <- !app_assoc; simpl; split; done. }
  eexists; rewrite <- !app_assoc; simpl; split; done.
Qed.

(** C9. When [_ensure_connection] launches the subprocess (no session is
    set), the launch is the first thing it does, it is the only launch of
    the call, and the environment it passes is the process environment
    overlaid with the configured mapping: a key of the configured mapping
    has the configured value, any other key has the value of the process
    environment, if any. *)
Theorem launch_environment_overlay (W : World) (s : sys) :
  session (client s) = None →
  ∃ (server_params : StdioServerParameters) (rest : list event),
    trace (mcp_client._ensure_connection W s).2
      = trace s ++ EvLaunch server_params :: rest
    ∧ launch_count rest = 0
    ∧ sp_command server_params = command (client s)
    ∧ sp_args server_params = args (client s)
    ∧ ∀ k : string,
        sp_env server_params !! k =
          match env (client s) !! k with
          | Some v => Some v
          | None => os_environ W !! k
          end.
Proof.
  intros Hs.
  destruct (ensure_connection_launches_first W s Hs) as (rest & Htrace & Hrest).
  eexists _, rest. split; [exact Htrace|]. split; [exact Hrest|].
  simpl. split_and!; [done..|].
  intros k. rewrite lookup_union.
  destruct (env (client s) !! k) as [v|], (os_environ W !! k) as [v'|]; done.
Qed.

Lemma launch_environment_overlay_witness :
  ∃ (server_params : StdioServerParameters) (rest : list event),
    trace (mcp_client._ensure_connection healthy_world (init_sys example_client)).2
      = [] ++ EvLaunch server_params :: rest
    ∧ sp_env server_params !! "LANG" = Some "en_US.UTF-8"
    ∧ sp_env server_params !! "PATH" = Some "/usr/bin".
Proof.
  destruct (launch_environment_overlay healthy_world (init_sys example_client) eq_refl)
    as (p & rest & Ht & _ & _ & _ & Hk).
  exists p, rest. split; [exact Ht|].
  split; [exact (Hk "LANG") | exact (Hk "PATH")].
Defined.

(** ** Failure during the connect sequence *)

(** When no exit callback raises, an [_ensure_connection] that failed with
    an instance of [Exception] releases what it acquired, last acquired
    first, leaves the client as it was with no session and no exit stack, and
    raises the failure of the step that failed. *)
Lemma ensure_connection_failure_resets (W : World) (s s' : sys) (e : exn) :
  session (client s) = None →
  (∀ r pending, ∃ b, resource_exit W r pending = ExitOk b) →
  exn_is_Exception e = true →
  mcp_client._ensure_connection W s = (inl e, s') →
  let n := launches s in
  let p := {| sp_command := command (client s); sp_args := args (client s);
              sp_env := env (client s) ∪ os_environ W |} in
  client s' = set_exit_stack None (client s)
  ∧ session (client s') = None
  ∧ exit_stack (client s') = None
  ∧ ((stdio_client_enter W p n = Some e
      ∧ trace s' = trace s ++ [EvLaunch p])
     ∨ (stdio_client_enter W p n = None ∧ ClientSession_enter W n = Some e
        ∧ trace s' = trace s ++ [EvLaunch p; EvSessionEnter n;
                                 EvRelease (Transport n)])
     ∨ (stdio_client_enter W p n = None ∧ ClientSession_enter W n = None
        ∧ session_initialize W n = Some e
        ∧ trace s' = trace s ++ [EvLaunch p; EvSessionEnter n; EvInitialize n;
                                 EvRelease (Session n); EvRelease (Transport n)])).
Proof.
  intros Hs Hquiet HE. rewrite (ensure_connection_unfold W s Hs). simpl.
  unfold failure_outcome.
  destruct (stdio_client_enter W _ (launches s)) as [e1|] eqn:E1;
    [|destruct (ClientSession_enter W (launches s)) as [e2|] eqn:E2;
      [|destruct (session_initialize W (launches s)) as [e3|] eqn:E3; [|done]]];
    (match goal with
     | |- context [exn_is_Exception ?x] => destruct (exn_is_Exception x) eqn:F
     end; [rewrite except_outcome_quiet by done|]; intros [= <- <-];
     [|congruence]);
    simpl; unfold set_session, set_exit_stack; simpl; rewrite ?Hs, <- ?app_assoc;
    simpl; (split_and!; [done..|]).
  - by left.
  - right; left; by repeat split.
  - right; right; by repeat split.
Qed.

(** After such a failure the next attempt launches again. *)
Lemma ensure_connection_retry_after_failure (W : World) (s s' : sys) (e : exn) :
  session (client s) = None →
  (∀ r pending, ∃ b, resource_exit W r pending = ExitOk b) →
  exn_is_Exception e = true →
  mcp_client._ensure_connection W s = (inl e, s') →
  ∃ p rest, trace (mcp_client._ensure_connection W s').2 = trace s' ++ EvLaunch p :: rest.
Proof.
  intros Hs Hquiet HE Hfail.
  destruct (ensure_connection_failure_resets W s s' e Hs Hquiet HE Hfail)
    as (_ & Hs' & _).
  destruct (ensure_connection_launches_first W s' Hs') as (rest & Ht & _).
  by eexists _, rest.
Qed.

(** When an exit callback raises while the handler releases the resources,
    [aclose] raises inside the [except] block: the two assignments after it
    are skipped and the exception of the callback replaces the one being
    handled.  Here the handshake fails and the transport's callback
    raises. *)
Lemma ensure_connection_exit_raises (W : World) (s : sys) (e e' : exn) (b : bool) :
  session (client s) = None →
  let n := launches s in
  stdio_client_enter W
    {| sp_command := command (client s); sp_args := args (client s);
       sp_env := env (client s) ∪ os_environ W |} n = None →
  ClientSession_enter W n = None →
  session_initialize W n = Some e →
  exn_is_Exception e = true →
  resource_exit W (Session n) None = ExitOk b →
  resource_exit W (Transport n) None = ExitRaises e' →
  ∃ s', mcp_client._ensure_connection W s = (inl e', s')
        ∧ session (client s') = Some n
        ∧ exit_stack (client s') = Some [].
Proof.
  intros Hs n H1 H2 H3 HE H4 H5. subst n. rewrite (ensure_connection_unfold W s Hs).
  simpl. rewrite H1, H2, H3. unfold failure_outcome, except_outcome. rewrite HE.
  simpl. rewrite H4.
  destruct b; rewrite H5; simpl; eexists; repeat split; done.
Qed.

(** C1 (the code departs from the claim). The first handshake fails with
    [handshake_error] and, while the handler releases the resources, the
    exit callback of the transport raises [exit_error].  Both callbacks run,
    yet the call raises [exit_error] and not the original failure, the
    session of the failed launch stays set and so does the (drained) exit
    stack; the next [_ensure_connection] then returns at once without
    launching, so the attempt does not start from the no-session state. *)
Theorem ensure_connection_release_raises_keeps_session :
  let r := mcp_client._ensure_connection raising_exit_world (init_sys example_client) in
  session_initialize raising_exit_world 0 = Some handshake_error
  ∧ r.1 = inl exit_error
  ∧ exit_error ≠ handshake_error
  ∧ session (client r.2) = Some 0
  ∧ exit_stack (client r.2) = Some []
  ∧ List.filter is_release (trace r.2) = [EvRelease (Session 0); EvRelease (Transport 0)]
  ∧ mcp_client._ensure_connection raising_exit_world r.2 = (inr tt, r.2)
  ∧ launch_count (trace (run_call raising_exit_world CallListTools r.2)) = 1.
Proof. vm_compute. repeat split; done. Qed.

(** ** Closing *)

(** [close] on a client that holds nothing, or whose release raises
    nothing, ends with no session and no exit stack. *)
Lemma close_resets_when_release_returns (W : World) (s : sys) :
  (∀ cbs, exit_stack (client s) = Some cbs →
     (mcp_client.run_exit_callbacks W cbs None (trace s)).1 = None) →
  ∃ s', mcp_client.close W s = (inr tt, s')
        ∧ session (client s') = None ∧ exit_stack (client s') = None.
Proof.
  intros Hquiet. unfold_py. simpl.
  destruct (exit_stack (client s)) as [cbs|] eqn:E; simpl.
  - rewrite E. specialize (Hquiet cbs eq_refl).
    destruct (mcp_client.run_exit_callbacks W cbs None (trace s)) as [pending tr].
    simpl in Hquiet. subst pending. simpl. eexists; repeat split; done.
  - eexists; repeat split; done.
Qed.

(** When [close] raises, the exception comes out of [aclose] and what
    follows it is skipped: the session is the one the client had, and the
    exit stack is still there, drained. *)
Lemma close_raises_keeps_session (W : World) (s s' : sys) (e : exn) :
  mcp_client.close W s = (inl e, s') →
  session (client s') = session (client s)
  ∧ exit_stack (client s') = Some []
  ∧ ∃ cbs, exit_stack (client s) = Some cbs
           ∧ (mcp_client.run_exit_callbacks W cbs None (trace s)).1 = Some e.
Proof.
  unfold_py. simpl.
  destruct (exit_stack (client s)) as [cbs|] eqn:E; simpl; [|done].
  rewrite E.
  destruct (mcp_client.run_exit_callbacks W cbs None (trace s)) as [[e'|] tr] eqn:R;
    simpl; [|done].
  intros [= <- <-]. simpl. split_and!; [done..|].
  exists cbs. by rewrite R.
Qed.

(** C3 (the code departs from the claim). [close] on a connected client
    whose transport exit callback raises: the exception leaves [close], the
    session is still set afterwards and the exit stack is not [None]. *)
Theorem close_release_raises_keeps_session :
  let r := mcp_client.close raising_exit_world connected_sys in
  r.1 = inl exit_error
  ∧ session (client r.2) = Some 0
  ∧ exit_stack (client r.2) = Some []
  ∧ trace r.2 = [EvRelease (Session 0); EvRelease (Transport 0)].
Proof. vm_compute. repeat split; done. Qed.

(** ** The routes *)

(** A request whose body is a dict with a false [name] (absent, [None], the
    empty string, ...) is answered 400 before anything is submitted. *)
Lemma call_tool_falsy_name (W : World) (req : request) (m : gmap string pyval) (s : sys) :
  request_json req = inr (PDict m) →
  truthy (default PNone (m !! "name")) = false →
  app.call_tool W req s = (inr (error_body "Tool name is required", 400%Z), s).
Proof.
  intros Hj Hf. unfold app.call_tool, try_except, bind, dict_get, ret.
  rewrite Hj. simpl. by rewrite Hf.
Qed.

(** With a true [name], the route submits [mcp_client.call_tool] with the
    name and with the arguments of the body, [{}] when there are none; what
    the wait raises is answered 500 when it is an instance of [Exception],
    and leaves the route otherwise. *)
Lemma call_tool_submits (W : World) (req : request) (m : gmap string pyval)
    (name : pyval) (s : sys) :
  request_json req = inr (PDict m) →
  m !! "name" = Some name →
  truthy name = true →
  app.call_tool W req s =
    match app.run_async W
            (mcp_client.call_tool W name (default (PDict ∅) (m !! "arguments"))) s with
    | (inl e, s') =>
        if exn_is_Exception e then (inr (error_body (exn_str e), 500%Z), s')
        else (inl e, s')
    | (inr result, s') =>
        (inr (PDict {[ "content" := PList (app.content_json <$> content result) ]},
              200%Z), s')
    end.
Proof.
  intros Hj Hn Ht. unfold app.call_tool, try_except, bind, dict_get, ret.
  rewrite Hj. simpl. rewrite Hn. simpl. rewrite Ht. simpl.
  destruct (app.run_async W _ s) as [[e|result] s']; [|done].
  by destruct (exn_is_Exception e).
Qed.

(** A body that is not a dict has no [get]: the route answers 500. *)
Lemma call_tool_body_not_dict (W : World) (req : request) (data : pyval) (s : sys) :
  request_json req = inr data →
  (∀ m, data ≠ PDict m) →
  app.call_tool W req s
    = (inr (error_body (exn_str (AttributeError (type_name data) "get")), 500%Z), s).
Proof.
  intros Hj Hd. unfold app.call_tool, try_except, bind, dict_get, ret, raise.
  rewrite Hj. simpl. destruct data; try done. by destruct (Hd m).
Qed.

(** C6 (as amended). For every POST /mcp/call_tool request whose JSON body
    is an object that lacks the key "name" or gives it the empty string, the
    answer is status 400 with body [{"error": "Tool name is required"}], and
    the process state (client, launch count, trace) is exactly what it was:
    the client is not called and nothing is launched. *)
Theorem call_tool_requires_name (W : World) (req : request)
    (m : gmap string pyval) (s : sys) :
  request_json req = inr (PDict m) →
  m !! "name" = None ∨ m !! "name" = Some (PStr "") →
  app.call_tool W req s
    = (inr (PDict {[ "error" := PStr "Tool name is required" ]}, 400%Z), s).
Proof.
  intros Hj Hname. apply (call_tool_falsy_name W req m s Hj).
  by destruct Hname as [-> | ->].
Qed.

Lemma call_tool_requires_name_witness :
  app.call_tool dead_world empty_body (init_sys example_client)
    = (inr (PDict {[ "error" := PStr "Tool name is required" ]}, 400%Z),
       init_sys example_client).
Proof.
  apply (call_tool_requires_name dead_world empty_body ∅ (init_sys example_client)).
  - reflexivity.
  - left. reflexivity.
Defined.

(** C6 (the claim as stated fails). The JSON body [null] has no "name"
    key, yet the answer is not 400: [data.get] raises [AttributeError] inside
    the [try] and the route answers 500 with the text of that error. *)
Lemma call_tool_null_body_is_500 :
  request_json null_body = inr PNone
  ∧ app.call_tool dead_world null_body (init_sys example_client)
    = (inr (PDict {[ "error" := PStr "'NoneType' object has no attribute 'get'" ]},
            500%Z),
       init_sys example_client)
  ∧ app.call_tool dead_world null_body (init_sys example_client)
    ≠ (inr (PDict {[ "error" := PStr "Tool name is required" ]}, 400%Z),
       init_sys example_client).
Proof.
  assert (H : app.call_tool dead_world null_body (init_sys example_client)
    = (inr (PDict {[ "error" := PStr "'NoneType' object has no attribute 'get'" ]},
            500%Z),
       init_sys example_client)) by reflexivity.
  split_and!; [done|exact H|]. rewrite H. by intros [=].
Qed.

(** [_ensure_connection] returns only with a session set. *)
Lemma ensure_connection_success_session (W : World) (s s1 : sys) :
  mcp_client._ensure_connection W s = (inr tt, s1) →
  ∃ n, session (client s1) = Some n.
Proof.
  destruct (session (client s)) as [n|] eqn:Hs.
  { unfold_py. rewrite Hs. simpl. intros [= <-]. by exists n. }
  rewrite (ensure_connection_unfold W s Hs). simpl.
  unfold failure_outcome, except_outcome.
  repeat match goal with
         | |- context [match ?o with Some _ => _ | None => _ end] =>
             destruct o as [?e|]
         | |- context [if exn_is_Exception ?x then _ else _] =>
             destruct (exn_is_Exception x)
         | |- context [mcp_client.run_exit_callbacks W ?c None ?t] =>
             destruct (mcp_client.run_exit_callbacks W c None t) as [[?e|] ?tr]
         end; try done.
  intros [= <-]. simpl. by eexists.
Qed.

(** C10. For every POST /mcp/call_tool request whose JSON body has a
    non-empty (true) "name" and no "arguments" key, the route behaves as for
    the same body with ["arguments": {}]: it does not answer 400, and once
    the connection stands the tool is invoked on the session with the name
    and the empty mapping. *)
Theorem call_tool_default_arguments (W : World) (req : request)
    (m : gmap string pyval) (name : pyval) (s : sys) :
  request_json req = inr (PDict m) →
  m !! "name" = Some name →
  truthy name = true →
  m !! "arguments" = None →
  app.call_tool W req s
    = app.call_tool W {| request_json := inr (PDict (<["arguments" := PDict ∅]> m)) |} s
  ∧ match (app.call_tool W req s).1 with
    | inr (_, status) => status ≠ 400%Z
    | inl e => exn_is_Exception e = false
    end
  ∧ ∀ s1, mcp_client._ensure_connection W s = (inr tt, s1) →
      ∃ n, session (client s1) = Some n
           ∧ trace (app.call_tool W req s).2
               = trace s1 ++ [EvCallTool n name (PDict ∅)].
Proof.
  intros Hj Hn Ht Ha.
  rewrite (call_tool_submits W req m name s Hj Hn Ht), Ha. simpl.
  split_and!.
  - rewrite (call_tool_submits W
               {| request_json := inr (PDict (<["arguments" := PDict ∅]> m)) |}
               (<["arguments" := PDict ∅]> m) name s eq_refl);
      [|by rewrite lookup_insert_ne|done].
    by rewrite lookup_insert_eq.
  - destruct (app.run_async W _ s) as [[e|result] s']; simpl; [|done].
    by destruct (exn_is_Exception e) eqn:E.
  - intros s1 Hc.
    destruct (ensure_connection_success_session W s s1 Hc) as [n Hs1].
    exists n. split; [done|].
    unfold app.run_async, mcp_client.call_tool, bind. rewrite Hc. simpl.
    rewrite Hs1. simpl.
    destruct (wait_times_out W (submitted s)); simpl;
      destruct (session_call_tool W n (submitted s1) name (PDict ∅)) as [e|res];
      simpl; try done;
      by destruct (exn_is_Exception (app.future_exception e)).
Qed.

Lemma call_tool_default_arguments_witness :
  trace (app.call_tool healthy_world echo_request connected_sys).2
    = [EvCallTool 0 (PStr "echo") (PDict ∅)].
Proof.
  destruct (call_tool_default_arguments healthy_world echo_request
              {[ "name" := PStr "echo" ]} (PStr "echo") connected_sys
              eq_refl eq_refl eq_refl eq_refl) as (_ & _ & H).
  destruct (H connected_sys eq_refl) as (n & Hn & Htr).
  injection Hn as <-. exact Htr.
Defined.

(** When the wait does not time out, the caller gets what the coroutine
    returned, or what its future raises for what it raised. *)
Lemma run_async_completes (W : World) {A} (coro : M A) (s : sys) :
  wait_times_out W (submitted s) = false →
  (app.run_async W coro s).1
    = match (coro s).1 with
      | inl e => inl (app.future_exception e)
      | inr a => inr a
      end.
Proof.
  intros Hw. unfold app.run_async. destruct (coro s) as [r s1]. by rewrite Hw.
Qed.

(** An instance of [Exception] is raised by the future as it is. *)
Lemma future_exception_Exception (e : exn) :
  exn_is_Exception e = true → app.future_exception e = e.
Proof. intros H. unfold app.future_exception. by rewrite H. Qed.

(** What [list_tools] answers, by the outcome of the submitted call. *)
Lemma list_tools_answer (W : World) (req : request) (s : sys) :
  app.list_tools W req s =
    match app.run_async W (mcp_client.list_tools W) s with
    | (inl e, s') =>
        if exn_is_Exception e then (inr (error_body (exn_str e), 500%Z), s')
        else (inl e, s')
    | (inr result, s') =>
        (inr (PDict {[ "tools" := PList (app.tool_json <$> tools result) ]}, 200%Z), s')
    end.
Proof.
  unfold app.list_tools, try_except, bind, ret.
  destruct (app.run_async W _ s) as [[e|result] s']; [|done].
  by destruct (exn_is_Exception e).
Qed.

(** A route answers 200, or 400 for a [call_tool] body with a false name
    (the state is then untouched), or 500 with an error body; what leaves a
    route as an exception is never an instance of [Exception]. *)
Lemma dispatch_answers (W : World) (r : app.route) (req : request) (s : sys) :
  match app.dispatch W r req s with
  | (inr (body, status), s') =>
      status = 200%Z
      ∨ (status = 400%Z ∧ r = app.CallTool
         ∧ body = PDict {[ "error" := PStr "Tool name is required" ]} ∧ s' = s
         ∧ ∃ m, request_json req = inr (PDict m)
                ∧ truthy (default PNone (m !! "name")) = false)
      ∨ (status = 500%Z ∧ ∃ msg, body = PDict {[ "error" := PStr msg ]})
  | (inl e, _) => exn_is_Exception e = false
  end.
Proof.
  destruct r; simpl.
  - rewrite list_tools_answer.
    destruct (app.run_async W _ s) as [[e|result] s']; [|by left].
    destruct (exn_is_Exception e) eqn:E; [|done]. right; right. eauto.
  - destruct (request_json req) as [e|data] eqn:Hj.
    { unfold app.call_tool, try_except, bind, ret. rewrite Hj. simpl.
      destruct e; simpl; right; right; eauto. }
    destruct data as [| | | | | |m];
      try (rewrite (call_tool_body_not_dict W req _ s Hj ltac:(done));
           right; right; eauto).
    destruct (truthy (default PNone (m !! "name"))) eqn:Ht.
    + destruct (m !! "name") as [name|] eqn:Hn; [|done]. simpl in Ht.
      rewrite (call_tool_submits W req m name s Hj Hn Ht).
      destruct (app.run_async W _ s) as [[e|result] s']; [|by left].
      destruct (exn_is_Exception e) eqn:E; [|done]. right; right. eauto.
    + rewrite (call_tool_falsy_name W req m s Hj Ht).
      right; left. split_and!; try done. by exists m.
Qed.

(** ** Worlds that raise only instances of [Exception] *)











(** ** Configuration precedence *)

Section ConfigFacts.
Context (json_loads : string → exn + pyval) (int : string → exn + Z).

Lemma override_server_lookup (environ : gmap string string) (var key : string)
    (parse : string → exn + pyval) (config config' : gmap string pyval)
    (srv : gmap string pyval) :
  config !! "server" = Some (PDict srv) →
  override_server environ var key parse config = inr config' →
  ∃ srv', config' !! "server" = Some (PDict srv')
    ∧ ∀ field, srv' !! field =
        match getenv_truthy environ var with
        | Some raw =>
            if decide (key = field)
            then match parse raw with inr v => Some v | inl _ => None end
            else srv !! field
        | None => srv !! field
        end.
Proof.
  intros Hsrv. unfold override_server.
  destruct (getenv_truthy environ var) as [raw|].
  - destruct (parse raw) as [e|v]; [done|].
    unfold setitem_server. rewrite Hsrv. intros [= <-].
    exists (<[key:=v]> srv). split; [by rewrite lookup_insert_eq|].
    intros field. by rewrite lookup_insert.
  - intros [= <-]. by exists srv.
Qed.

(** Without a file, or with a file whose [server] entry is complete, every
    field of the loaded configuration follows the three-level precedence. *)
Lemma load_config_precedence_when_complete (file : config_file)
    (environ : gmap string string) (cfg : gmap string pyval) (field : string) :
  field ∈ server_fields →
  file_complete file →
  load_config json_loads int file environ = inr cfg →
  ∃ v, precedence json_loads int file environ field = Some (inr v)
       ∧ server_item cfg field = inr v.
Proof.
  intros Hfield Hcomplete. unfold load_config.
  set (config0 := match file with
                  | Loaded (YMapping m) =>
                      if bool_decide (m = ∅) then default_config else m ∪ default_config
                  | _ => default_config
                  end).
  assert (H0 : ∃ srv0, config0 !! "server" = Some (PDict srv0)
            ∧ srv0 !! field = match file_value file field with
                              | Some v => Some v
                              | None => default_server !! field
                              end).
  { subst config0. unfold file_value.
    destruct file as [| |[|m]]; try (by exists default_server).
    simpl in Hcomplete. case_bool_decide as Hm.
    { subst m. by exists default_server. }
    rewrite lookup_union.
    destruct (m !! "server") as [[| | | | | |srv]|] eqn:Hsrv; try done.
    - exists srv. split; [done|].
      destruct (Hcomplete field Hfield) as [v ->]. done.
    - exists default_server. done. }
  destruct H0 as (srv0 & Hsrv0 & Hf0). clearbody config0.
  destruct (override_server environ "MCP_COMMAND" "command" _ config0)
    as [e|config1] eqn:E1; [done|].
  destruct (override_server_lookup _ _ _ _ _ _ _ Hsrv0 E1) as (srv1 & Hsrv1 & Hf1).
  destruct (override_server environ "MCP_ARGS" "args" _ config1)
    as [e|config2] eqn:E2; [done|].
  destruct (override_server_lookup _ _ _ _ _ _ _ Hsrv1 E2) as (srv2 & Hsrv2 & Hf2).
  intros E3.
  destruct (override_server_lookup _ _ _ _ _ _ _ Hsrv2 E3) as (srv3 & Hsrv3 & Hf3).
  unfold server_item, getitem. rewrite Hsrv3, Hf3, Hf2, Hf1, Hf0.
  unfold precedence, env_value.
  unfold override_server in E1, E2, E3.
  assert (Hcases : field = "name" ∨ field = "command" ∨ field = "args"
                   ∨ field = "env" ∨ field = "port").
  { unfold server_fields in Hfield.
    rewrite !elem_of_cons, elem_of_nil in Hfield. tauto. }
  destruct Hcases as [-> | [-> | [-> | [-> | ->]]]]; simpl;
    destruct (getenv_truthy environ "MCP_COMMAND") as [c|];
    destruct (getenv_truthy environ "MCP_ARGS") as [a|];
    destruct (getenv_truthy environ "PORT") as [p|]; simpl;
    repeat match goal with
           | H : context [json_loads ?a] |- _ => destruct (json_loads a); try done
           | H : context [int ?a] |- _ => destruct (int a); try done
           end;
    try (by eexists);
    try (destruct (file_value file _); by eexists).
Qed.

End ConfigFacts.

(** C8 (the code departs from the claim). With a [config.yml] that sets only
    [server.command] and no environment override, the loaded configuration
    is the file's [server] mapping alone: the file's top-level entry replaces
    the default one as a whole.  Field by field, the precedence asks for the
    defaults of [name], [args], [env] and [port]; the configuration has none
    of them, and the module-level reads of [name] and [port] raise. *)
Theorem load_config_partial_file_drops_defaults
    (json_loads : string → exn + pyval) (int : string → exn + Z) :
  let cfg : gmap string pyval := {[ "server" := PDict {[ "command" := PStr "node" ]} ]} in
  load_config json_loads int partial_file ∅ = inr cfg
  ∧ precedence json_loads int partial_file ∅ "name"
      = Some (inr (PStr "generic-mcp-server"))
  ∧ precedence json_loads int partial_file ∅ "port" = Some (inr (PInt 3050))
  ∧ precedence json_loads int partial_file ∅ "command" = Some (inr (PStr "node"))
  ∧ server_item cfg "command" = inr (PStr "node")
  ∧ SERVER_NAME cfg = inl (KeyError "name")
  ∧ PORT cfg = inl (KeyError "port")
  ∧ server_item cfg "args" = inl (KeyError "args")
  ∧ server_item cfg "env" = inl (KeyError "env").
Proof. repeat split; reflexivity. Qed.

(** What does hold at the first two levels: without a file the defaults are
    returned, and the three variables override them. *)
Lemma load_config_defaults (json_loads : string → exn + pyval) (int : string → exn + Z) :
  load_config json_loads int NoFile ∅ = inr default_config.
Proof. reflexivity. Qed.

Lemma load_config_environment_overrides :
  load_config example_json_loads example_int full_file
    {[ "MCP_COMMAND" := "uvx"; "MCP_ARGS" := "[1, 2]"; "PORT" := "8080" ]}
  = inr {[ "server" := PDict
             {[ "name" := PStr "airbnb"; "command" := PStr "uvx";
                "args" := PList [PInt 1; PInt 2];
                "env" := PDict ∅; "port" := PInt 8080 ]} ]}.
Proof. vm_compute. reflexivity. Qed.


(** * Further properties of the code *)

(** [close], by what the exit stack holds and what its callbacks do. *)
Lemma close_unfold (W : World) (s : sys) :
  mcp_client.close W s =
    match exit_stack (client s) with
    | None =>
        (inr tt,
         {| client := set_exit_stack None (set_session None (client s));
            launches := launches s; submitted := submitted s; trace := trace s |})
    | Some cbs =>
        match mcp_client.run_exit_callbacks W cbs None (trace s) with
        | (Some e, tr) =>
            (inl e,
             {| client := set_exit_stack (Some []) (client s);
                launches := launches s; submitted := submitted s; trace := tr |})
        | (None, tr) =>
            (inr tt,
             {| client := set_exit_stack None (set_session None (client s));
                launches := launches s; submitted := submitted s; trace := tr |})
        end
    end.
Proof.
  unfold_py. simpl. destruct (exit_stack (client s)) as [cbs|] eqn:E; simpl; [|done].
  rewrite E.
  by destruct (mcp_client.run_exit_callbacks W cbs None (trace s)) as [[e|] tr].
Qed.

(** ** What the exit stack owns *)

Lemma replay_app (W : World) (tr evs : list event) :
  replay W (tr ++ evs) = foldl (replay_step W) (replay W tr) evs.
Proof. unfold replay. by rewrite foldl_app. Qed.

Lemma owns_held_nil (W : World) (s : sys) :
  owns W s → session (client s) = None → held (client s) = [].
Proof.
  intros [_ Hshape] Hs. unfold held.
  destruct (exit_stack (client s)) as [[|[m|n] [|[m'|n'] [|r cbs]]]|]; try done.
  destruct Hshape as [_ Hn]. congruence.
Qed.

Ltac owns_now Hr :=
  unfold owns, held; simpl; rewrite ?replay_app, ?Hr; simpl;
  repeat match goal with
         | H : _ = _ |- _ => rewrite H
         end;
  simpl; repeat (rewrite Nat.eqb_refl; simpl); try done.

Lemma owns_ensure_connection (W : World) (s : sys) :
  connect_raises_Exception W →
  owns W s → owns W (mcp_client._ensure_connection W s).2.
Proof.
  intros HW Ho. destruct (session (client s)) as [n|] eqn:Hs.
  { by rewrite (ensure_connection_noop W s n Hs). }
  pose proof (owns_held_nil W s Ho Hs) as Hheld.
  destruct Ho as [Hr _]. rewrite Hheld in Hr.
  rewrite (ensure_connection_unfold_Exception W s HW Hs). unfold except_outcome. simpl.
  destruct (stdio_client_enter W _ (launches s)) as [e1|] eqn:E1; simpl.
  { clear Hs Hheld. owns_now Hr. }
  destruct (ClientSession_enter W (launches s)) as [e2|] eqn:E2; simpl.
  { destruct (resource_exit W (Transport (launches s)) None) as [[]|e]; simpl;
      clear Hs Hheld; owns_now Hr. }
  destruct (session_initialize W (launches s)) as [e3|] eqn:E3; simpl.
  { destruct (resource_exit W (Session (launches s)) None) as [[]|e]; simpl;
      match goal with
      | |- context [resource_exit W (Transport (launches s)) ?q] =>
          destruct (resource_exit W (Transport (launches s)) q) as [[]|e']
      end; simpl; clear Hs Hheld E3; owns_now Hr. }
  clear Hs Hheld E3. owns_now Hr.
Qed.

(** A request operation is [_ensure_connection] followed, when it
    returned, by one request event on the session. *)
Lemma run_op_request (W : World) (op : client_op) (s : sys) :
  op ≠ OpEnsure → op ≠ OpClose →
  let s1 := (mcp_client._ensure_connection W s).2 in
  run_op W op s = s1
  ∨ ∃ n, session (client s1) = Some n
         ∧ (run_op W op s = emit (EvListTools n) s1
            ∨ ∃ name arguments, run_op W op s = emit (EvCallTool n name arguments) s1).
Proof.
  intros H1 H2. destruct op as [| |name arguments|]; try done; simpl;
    unfold mcp_client.list_tools, mcp_client.call_tool, bind;
    destruct (mcp_client._ensure_connection W s) as [[e|[]] s1] eqn:E; simpl;
    try (by left);
    destruct (ensure_connection_success_session W s s1 E) as [n Hn];
    rewrite Hn; right; exists n; (split; [done|]); unfold tell; simpl.
  - left. reflexivity.
  - right. exists name, arguments. reflexivity.
Qed.

Lemma owns_emit (W : World) (ev : event) (s : sys) :
  is_launch ev = false → is_release ev = false →
  (∀ n, ev ≠ EvSessionEnter n) →
  owns W s → owns W (emit ev s).
Proof.
  intros H1 H2 H3 [Hr Hshape]. split; [|done].
  unfold emit, with_trace; simpl. rewrite replay_app, Hr.
  destruct ev; try done. by destruct (H3 n).
Qed.

Lemma owns_close (W : World) (s : sys) :
  owns W s → owns W (mcp_client.close W s).2.
Proof.
  intros [Hr Hshape]. rewrite close_unfold. unfold held in Hr.
  destruct (exit_stack (client s)) as [[|[m|n] [|[m'|n'] [|r cbs]]]|] eqn:E;
    simpl in Hshape; try done; simpl;
    try (destruct Hshape as [<- Hn];
         destruct (resource_exit W (Session n) None) as [[]|e]; simpl;
         match goal with
         | |- context [resource_exit W (Transport n) ?q] =>
             destruct (resource_exit W (Transport n) q) as [[]|e']
         end; simpl; clear E Hn);
    owns_now Hr.
Qed.

Lemma owns_run_op (W : World) (op : client_op) (s : sys) :
  connect_raises_Exception W →
  owns W s → owns W (run_op W op s).
Proof.
  intros HW Ho. pose proof (owns_ensure_connection W s HW Ho) as Ho1.
  destruct op as [| |name arguments|] eqn:Eop.
  - exact Ho1.
  - destruct (run_op_request W OpListTools s) as [->|(n & _ & [->|(? & ? & ->)])];
      try done; by apply owns_emit.
  - destruct (run_op_request W (OpCallTool name arguments) s)
      as [->|(n & _ & [->|(? & ? & ->)])]; try done; by apply owns_emit.
  - by apply owns_close.
Qed.

Lemma config_ensure_connection (W : World) (s : sys) :
  let c' := client (mcp_client._ensure_connection W s).2 in
  command c' = command (client s) ∧ args c' = args (client s) ∧ env c' = env (client s).
Proof.
  destruct (session (client s)) as [n|] eqn:Hs; simpl.
  { by rewrite (ensure_connection_noop W s n Hs). }
  rewrite (ensure_connection_unfold W s Hs). unfold failure_outcome, except_outcome.
  repeat match goal with
         | |- context [match ?o with Some _ => _ | None => _ end] =>
             destruct o as [?e|]
         | |- context [if exn_is_Exception ?x then _ else _] =>
             destruct (exn_is_Exception x)
         | |- context [mcp_client.run_exit_callbacks W ?c None ?t] =>
             destruct (mcp_client.run_exit_callbacks W c None t) as [[?e|] ?tr]
         end; done.
Qed.

Lemma config_run_op (W : World) (op : client_op) (s : sys) :
  let c' := client (run_op W op s) in
  command c' = command (client s) ∧ args c' = args (client s) ∧ env c' = env (client s).
Proof.
  pose proof (config_ensure_connection W s) as Hc.
  destruct op as [| |name arguments|] eqn:Eop.
  - exact Hc.
  - destruct (run_op_request W OpListTools s) as [->|(n & _ & [->|(? & ? & ->)])];
      done.
  - destruct (run_op_request W (OpCallTool name arguments) s)
      as [->|(n & _ & [->|(? & ? & ->)])]; done.
  - simpl. rewrite close_unfold. destruct (exit_stack (client s)) as [cbs|]; [|done].
    by destruct (mcp_client.run_exit_callbacks W cbs None (trace s)) as [[e|] tr].
Qed.

(** The concrete worlds whose connect steps raise only instances of
    [Exception]. *)
Lemma raising_exit_world_connect_raises_Exception :
  connect_raises_Exception raising_exit_world.
Proof.
  split_and!; simpl; try done. intros [|n] e; [|done]. by intros [= <-].
Qed.

Lemma healthy_world_connect_raises_Exception : connect_raises_Exception healthy_world.
Proof. split_and!; simpl; done. Qed.

(** X1. When the connect steps raise only instances of [Exception]
    (exit callbacks and requests on the session may raise anything),
    whatever sequence of [_ensure_connection], [list_tools], [call_tool] and
    [close] runs on a fresh client: the resources that were opened and whose
    exit callback has not run are exactly the callbacks on the client's exit
    stack, so nothing open is ever dropped; the stack, when not empty, holds
    the session of the client above its transport and nothing of an earlier
    launch; and the command, arguments and environment given at construction
    are never changed. *)
Theorem exit_stack_owns_open_resources (W : World) (command0 : string)
    (args0 : list string) (env0 : option (gmap string string))
    (ops : list client_op) :
  connect_raises_Exception W →
  let s := run_ops W ops (init_sys (MCPClient_init command0 args0 env0)) in
  owns W s
  ∧ command (client s) = command0
  ∧ args (client s) = args0
  ∧ env (client s) = default ∅ env0.
Proof.
  intros HW. simpl.
  assert (Hgen : ∀ s0, owns W s0 →
    owns W (run_ops W ops s0)
    ∧ command (client (run_ops W ops s0)) = command (client s0)
    ∧ args (client (run_ops W ops s0)) = args (client s0)
    ∧ env (client (run_ops W ops s0)) = env (client s0)).
  { induction ops as [|op ops IH]; intros s0 Ho; [done|].
    unfold run_ops. simpl. fold (run_ops W ops (run_op W op s0)).
    destruct (IH (run_op W op s0) (owns_run_op W op s0 HW Ho)) as (Ho' & H1 & H2 & H3).
    destruct (config_run_op W op s0) as (H1' & H2' & H3').
    split_and!; [done|congruence..]. }
  apply (Hgen (init_sys (MCPClient_init command0 args0 env0))).
  by split.
Qed.

Lemma exit_stack_owns_open_resources_witness :
  let s := run_ops raising_exit_world [OpListTools; OpClose; OpListTools]
             (init_sys (MCPClient_init "echo_mcp_server" ["--stub"] None)) in
  owns raising_exit_world s
  ∧ command (client s) = "echo_mcp_server"
  ∧ args (client s) = ["--stub"]
  ∧ env (client s) = ∅.
Proof.
  apply (exit_stack_owns_open_resources raising_exit_world "echo_mcp_server"
           ["--stub"] None [OpListTools; OpClose; OpListTools]).
  exact raising_exit_world_connect_raises_Exception.
Defined.

(** ** Session and exit stack go together when releases do not raise *)

Lemma paired_ensure_connection (W : World) (s : sys) :
  connect_raises_Exception W →
  (∀ r pending, ∃ b, resource_exit W r pending = ExitOk b) →
  paired (client s) → paired (client (mcp_client._ensure_connection W s).2).
Proof.
  intros HW Hquiet Hp. destruct (session (client s)) as [n|] eqn:Hs.
  { by rewrite (ensure_connection_noop W s n Hs). }
  rewrite (ensure_connection_unfold_Exception W s HW Hs). unfold except_outcome.
  destruct (stdio_client_enter W _ (launches s)); [done|].
  destruct (ClientSession_enter W (launches s)).
  { pose proof (run_exit_callbacks_quiet W [Transport (launches s)]
      (trace s ++ [EvLaunch {| sp_command := command (client s);
                              sp_args := args (client s);
                              sp_env := env (client s) ∪ os_environ W |};
                   EvSessionEnter (launches s)]) Hquiet) as Hq.
    destruct (mcp_client.run_exit_callbacks W _ None _) as [pending tr].
    simpl in Hq. by subst pending. }
  destruct (session_initialize W (launches s)); [|done].
  pose proof (run_exit_callbacks_quiet W [Session (launches s); Transport (launches s)]
    (trace s ++ [EvLaunch {| sp_command := command (client s);
                            sp_args := args (client s);
                            sp_env := env (client s) ∪ os_environ W |};
                 EvSessionEnter (launches s); EvInitialize (launches s)]) Hquiet) as Hq.
  destruct (mcp_client.run_exit_callbacks W _ None _) as [pending tr].
  simpl in Hq. by subst pending.
Qed.

Lemma paired_run_op (W : World) (op : client_op) (s : sys) :
  connect_raises_Exception W →
  (∀ r pending, ∃ b, resource_exit W r pending = ExitOk b) →
  paired (client s) → paired (client (run_op W op s)).
Proof.
  intros HW Hquiet Hp. pose proof (paired_ensure_connection W s HW Hquiet Hp) as Hp1.
  destruct op as [| |name arguments|] eqn:Eop.
  - exact Hp1.
  - destruct (run_op_request W OpListTools s) as [->|(n & _ & [->|(? & ? & ->)])];
      done.
  - destruct (run_op_request W (OpCallTool name arguments) s)
      as [->|(n & _ & [->|(? & ? & ->)])]; done.
  - simpl. rewrite close_unfold. destruct (exit_stack (client s)) as [cbs|]; [|done].
    pose proof (run_exit_callbacks_quiet W cbs (trace s) Hquiet) as Hq.
    destruct (mcp_client.run_exit_callbacks W cbs None (trace s)) as [pending tr].
    simpl in Hq. by subst pending.
Qed.

(** X2. In a world where the connect steps raise only instances of
    [Exception] and no exit callback raises, after any sequence of
    [_ensure_connection], [list_tools], [call_tool] and [close] on a fresh
    client, session and exit stack are set together or absent together:
    without a session there is no exit stack, and with the session of launch
    [n] the stack holds exactly that session above its transport. *)
Theorem session_and_exit_stack_paired (W : World) (command0 : string)
    (args0 : list string) (env0 : option (gmap string string))
    (ops : list client_op) :
  connect_raises_Exception W →
  (∀ r pending, ∃ b, resource_exit W r pending = ExitOk b) →
  paired (client (run_ops W ops (init_sys (MCPClient_init command0 args0 env0)))).
Proof.
  intros HW Hquiet.
  assert (Hgen : ∀ s0, paired (client s0) → paired (client (run_ops W ops s0))).
  { induction ops as [|op ops IH]; intros s0 Hp; [done|].
    unfold run_ops. simpl. fold (run_ops W ops (run_op W op s0)).
    apply IH. by apply paired_run_op. }
  by apply Hgen.
Qed.

Lemma session_and_exit_stack_paired_witness :
  paired (client (run_ops healthy_world
    [OpListTools; OpClose; OpCallTool (PStr "echo") (PDict ∅)]
    (init_sys (MCPClient_init "echo_mcp_server" ["--stub"] None)))).
Proof.
  apply (session_and_exit_stack_paired healthy_world "echo_mcp_server" ["--stub"] None).
  - exact healthy_world_connect_raises_Exception.
  - intros r pending. by exists false.
Defined.

(** ** Closing, again *)

(** X3. [close] called a second time always returns, whatever the first
    call did: the first call drained the exit stack even if it raised, so the
    second runs no callback (the trace does not grow) and leaves the client
    with no session and no exit stack. *)
Theorem close_twice_resets (W : World) (s : sys) :
  let s1 := (mcp_client.close W s).2 in
  ∃ s2, mcp_client.close W s1 = (inr tt, s2)
        ∧ session (client s2) = None
        ∧ exit_stack (client s2) = None
        ∧ trace s2 = trace s1.
Proof.
  simpl. rewrite (close_unfold W s).
  destruct (exit_stack (client s)) as [cbs|] eqn:E.
  - destruct (mcp_client.run_exit_callbacks W cbs None (trace s)) as [[e|] tr];
      simpl; rewrite close_unfold; simpl; eexists; split_and!; done.
  - simpl. rewrite close_unfold. simpl. eexists; split_and!; done.
Qed.

(** The trace after [close]. *)
Lemma close_runs_every_exit_callback_aux (W : World) (s : sys) :
  trace (mcp_client.close W s).2 = trace s ++ (EvRelease <$> held (client s)).
Proof.
  rewrite close_unfold. unfold held.
  destruct (exit_stack (client s)) as [cbs|]; simpl.
  - pose proof (run_exit_callbacks_trace W cbs None (trace s)) as Ht.
    destruct (mcp_client.run_exit_callbacks W cbs None (trace s)) as [[e|] tr];
      simpl in *; by subst tr.
  - by rewrite app_nil_r.
Qed.

(** X4. Whether it returns or raises, [close] runs the exit callback of
    every resource on the exit stack exactly once, the last acquired first,
    and does nothing else to the subprocess: a raising callback does not
    keep the ones below it from running. *)
Theorem close_runs_every_exit_callback (W : World) (s : sys) :
  trace (mcp_client.close W s).2 = trace s ++ (EvRelease <$> held (client s)).
Proof.
  rewrite close_unfold. unfold held.
  destruct (exit_stack (client s)) as [cbs|]; simpl.
  - pose proof (run_exit_callbacks_trace W cbs None (trace s)) as Ht.
    destruct (mcp_client.run_exit_callbacks W cbs None (trace s)) as [[e|] tr];
      simpl in *; by subst tr.
  - by rewrite app_nil_r.
Qed.

Lemma owns_run_ops (W : World) (ops : list client_op) (s0 : sys) :
  connect_raises_Exception W →
  owns W s0 → owns W (run_ops W ops s0).
Proof.
  intros HW. revert s0. induction ops as [|op ops IH]; intros s0 Hs0; [done|].
  unfold run_ops. simpl. fold (run_ops W ops (run_op W op s0)).
  apply IH. by apply owns_run_op.
Qed.

(** After a failed [_ensure_connection] whose connect steps raise only
    instances of [Exception], the exit stack is absent or drained. *)
Lemma ensure_connection_failure_held (W : World) (s s' : sys) (e : exn) :
  connect_raises_Exception W →
  mcp_client._ensure_connection W s = (inl e, s') → held (client s') = [].
Proof.
  intros HW. destruct (session (client s)) as [n|] eqn:Hs.
  { by rewrite (ensure_connection_noop W s n Hs). }
  rewrite (ensure_connection_unfold_Exception W s HW Hs). unfold except_outcome, held.
  destruct (stdio_client_enter W _ (launches s)).
  { by intros [= <- <-]. }
  destruct (ClientSession_enter W (launches s)).
  { destruct (mcp_client.run_exit_callbacks W _ None _) as [[e'|] tr];
      by intros [= <- <-]. }
  destruct (session_initialize W (launches s)); [|done].
  destruct (mcp_client.run_exit_callbacks W _ None _) as [[e'|] tr];
    by intros [= <- <-].
Qed.

(** X5. When the connect steps raise only instances of [Exception]:
    whenever [_ensure_connection] raises, at any point of any run from a
    fresh client (also when exit callbacks raise, whatever they raise),
    nothing stays open: every transport and session entered so far has had
    its exit callback run. *)
Theorem failed_connection_leaves_nothing_open (W : World) (command0 : string)
    (args0 : list string) (env0 : option (gmap string string))
    (ops : list client_op) (e : exn) (s' : sys) :
  connect_raises_Exception W →
  mcp_client._ensure_connection W
    (run_ops W ops (init_sys (MCPClient_init command0 args0 env0))) = (inl e, s') →
  (replay W (trace s')).2 = [].
Proof.
  intros HW Hfail.
  assert (Ho : owns W (run_ops W ops (init_sys (MCPClient_init command0 args0 env0)))).
  { apply owns_run_ops; [done|]. by split. }
  apply (owns_ensure_connection W _ HW) in Ho. rewrite Hfail in Ho. simpl in Ho.
  destruct Ho as [Hr _]. rewrite Hr. simpl.
  exact (ensure_connection_failure_held W _ s' e HW Hfail).
Qed.

Lemma failed_connection_leaves_nothing_open_witness :
  (replay raising_exit_world
     (trace (mcp_client._ensure_connection raising_exit_world
               (init_sys (MCPClient_init "echo_mcp_server" ["--stub"] None))).2)).2 = [].
Proof.
  apply (failed_connection_leaves_nothing_open raising_exit_world
           "echo_mcp_server" ["--stub"] None [] exit_error).
  - exact raising_exit_world_connect_raises_Exception.
  - reflexivity.
Defined.

(** X6. Reconnecting after [close]: when [close] returns on a connected
    client and the connect steps of the next launch work, the next
    [list_tools] or [call_tool] launches the subprocess once more, after the
    old resources were released, and holds the session of the new launch. *)
Theorem call_after_close_reconnects (W : World) (c : client_call) (s s1 : sys) :
  mcp_client.close W s = (inr tt, s1) →
  stdio_client_enter W
    {| sp_command := command (client s); sp_args := args (client s);
       sp_env := env (client s) ∪ os_environ W |} (launches s) = None →
  ClientSession_enter W (launches s) = None →
  session_initialize W (launches s) = None →
  session (client (run_call W c s1)) = Some (launches s)
  ∧ launch_count (trace (run_call W c s1)) = S (launch_count (trace s))
  ∧ ∃ rest, trace (run_call W c s1)
            = trace s ++ (EvRelease <$> held (client s)) ++ rest.
Proof.
  intros Hclose H1 H2 H3.
  pose proof (close_runs_every_exit_callback_aux W s) as Ht.
  rewrite close_unfold in Hclose, Ht.
  assert (Hs1 : client s1 = set_exit_stack None (set_session None (client s))
                ∧ launches s1 = launches s ∧ trace s1 = trace s ++ (EvRelease <$> held (client s))).
  { destruct (exit_stack (client s)) as [cbs|].
    - destruct (mcp_client.run_exit_callbacks W cbs None (trace s)) as [[e|] tr];
        [done|]. injection Hclose as <-. by simpl in *.
    - injection Hclose as <-. by simpl in *. }
  destruct Hs1 as (Hc & Hl & Htr).
  destruct (run_call_connects W c s1) as [Hsess Hcount].
  { by rewrite Hc. }
  { by rewrite Hc, Hl. }
  { by rewrite Hl. }
  { by rewrite Hl. }
  rewrite Hl in Hsess. rewrite Htr, launch_count_app in Hcount.
  assert (Hrel : ∀ cbs, launch_count (EvRelease <$> cbs) = 0).
  { induction cbs as [|r cbs IH]; [done|]. simpl. exact IH. }
  rewrite Hrel, Nat.add_0_r in Hcount.
  split_and!; [done..|].
  destruct (ensure_connection_launches_first W s1) as (rest & Hrest & _).
  { by rewrite Hc. }
  destruct c as [|name arguments]; simpl.
  - destruct (run_op_request W OpListTools s1) as [Heq|(n & _ & [Heq|(? & ? & Heq)])];
      try done; simpl in Heq; rewrite Heq; unfold emit; simpl;
      rewrite Hrest, Htr, <- ?app_assoc; simpl; eexists; reflexivity.
  - destruct (run_op_request W (OpCallTool name arguments) s1)
      as [Heq|(n & _ & [Heq|(? & ? & Heq)])];
      try done; simpl in Heq; rewrite Heq; unfold emit; simpl;
      rewrite Hrest, Htr, <- ?app_assoc; simpl; eexists; reflexivity.
Qed.

Lemma call_after_close_reconnects_witness :
  session (client (run_call healthy_world CallListTools
                     (mcp_client.close healthy_world connected_sys).2)) = Some 1.
Proof.
  exact (proj1 (call_after_close_reconnects healthy_world CallListTools
                  connected_sys _ eq_refl eq_refl eq_refl eq_refl)).
Defined.

(** ** The routes on a connected client *)

Lemma run_async_state (W : World) {A} (coro : M A) (s : sys) :
  client (app.run_async W coro s).2 = client (coro s).2
  ∧ launches (app.run_async W coro s).2 = launches (coro s).2
  ∧ trace (app.run_async W coro s).2 = trace (coro s).2.
Proof.
  unfold app.run_async. destruct (coro s) as [r s1].
  by destruct (wait_times_out W (submitted s)).
Qed.

(** The state a route leaves is the state it got or the state of the one
    client call it submitted. *)
Lemma dispatch_state (W : World) (r : app.route) (req : request) (s : sys) :
  (app.dispatch W r req s).2 = s
  ∨ ∃ c, client (app.dispatch W r req s).2 = client (run_call W c s)
         ∧ launches (app.dispatch W r req s).2 = launches (run_call W c s)
         ∧ trace (app.dispatch W r req s).2 = trace (run_call W c s).
Proof.
  destruct r; simpl.
  - right. exists CallListTools. rewrite list_tools_answer. simpl.
    pose proof (run_async_state W (mcp_client.list_tools W) s) as Hs.
    destruct (app.run_async W (mcp_client.list_tools W) s) as [[e|result] s'];
      [|done]. by destruct (exn_is_Exception e).
  - destruct (request_json req) as [e|data] eqn:Hj.
    { left. unfold app.call_tool, try_except, bind, ret. rewrite Hj. by destruct e. }
    destruct data as [| | | | | |m];
      try (left; by rewrite (call_tool_body_not_dict W req _ s Hj ltac:(done))).
    destruct (truthy (default PNone (m !! "name"))) eqn:Ht.
    + destruct (m !! "name") as [name|] eqn:Hn; [|done]. simpl in Ht.
      right. exists (CallCallTool name (default (PDict ∅) (m !! "arguments"))).
      rewrite (call_tool_submits W req m name s Hj Hn Ht). simpl.
      pose proof (run_async_state W
        (mcp_client.call_tool W name (default (PDict ∅) (m !! "arguments"))) s) as Hs.
      destruct (app.run_async W _ s) as [[e|result] s']; [|done].
      by destruct (exn_is_Exception e).
    + left. by rewrite (call_tool_falsy_name W req m s Hj Ht).
Qed.

(** X7. Once the client holds a session, no sequence of HTTP requests
    changes the client or launches anything, whatever the requests are and
    however they end (failing session calls, timeouts, malformed bodies): the
    routes never close, replace or reconnect the session they were given. *)
Theorem serving_keeps_the_session (W : World) (reqs : list (app.route * request))
    (s : sys) (n : nat) :
  session (client s) = Some n →
  client (app.serve W reqs s).2 = client s
  ∧ launches (app.serve W reqs s).2 = launches s
  ∧ launch_count (trace (app.serve W reqs s).2) = launch_count (trace s).
Proof.
  revert s. induction reqs as [|[r req] reqs IH]; intros s Hn; [done|].
  simpl. unfold bind.
  assert (H1 : client (app.dispatch W r req s).2 = client s
               ∧ launches (app.dispatch W r req s).2 = launches s
               ∧ launch_count (trace (app.dispatch W r req s).2)
                 = launch_count (trace s)).
  { destruct (dispatch_state W r req s) as [->|(c & -> & -> & ->)]; [done|].
    destruct (run_call_connected W c s n Hn) as [Hc' Ht'].
    split_and!; [done| |done].
    clear -Hn.
    destruct c as [|name arguments];
      unfold run_call, mcp_client.list_tools, mcp_client.call_tool, bind;
      rewrite (ensure_connection_noop W s n Hn); simpl; rewrite Hn; simpl.
    - by destruct (session_list_tools W n (submitted s)).
    - by destruct (session_call_tool W n (submitted s) name arguments). }
  destruct (app.dispatch W r req s) as [[e|resp] s1]; simpl in H1; [done|].
  destruct H1 as (Hc1 & Hl1 & Ht1).
  destruct (IH s1) as (Hc2 & Hl2 & Ht2); [by rewrite Hc1|].
  destruct (app.serve W reqs s1) as [[e|resps] s2]; simpl in *;
    split_and!; congruence.
Qed.

Lemma serving_keeps_the_session_witness :
  client (app.serve hostile_exit_world
            [(app.CallTool, echo_request); (app.ListTools, empty_body);
             (app.CallTool, array_body)] connected_sys).2
    = connected_client.
Proof.
  exact (proj1 (serving_keeps_the_session hostile_exit_world _ connected_sys 0 eq_refl)).
Defined.

(** ** A failed request and the next one *)

Lemma launch_count_releases (cbs : list resource) :
  launch_count (EvRelease <$> cbs) = 0.
Proof. induction cbs as [|r cbs IH]; [done|]. simpl. exact IH. Qed.

(** The state after a connect that failed with an instance of
    [Exception] and whose releases did not raise. *)
Lemma ensure_connection_failure_state (W : World) (s s1 : sys) (e : exn) :
  session (client s) = None →
  (∀ r pending, ∃ b, resource_exit W r pending = ExitOk b) →
  exn_is_Exception e = true →
  mcp_client._ensure_connection W s = (inl e, s1) →
  client s1 = set_session None (set_exit_stack None (client s))
  ∧ launches s1 = S (launches s)
  ∧ submitted s1 = submitted s
  ∧ launch_count (trace s1) = S (launch_count (trace s)).
Proof.
  intros Hs Hquiet HE. rewrite (ensure_connection_unfold W s Hs). simpl.
  unfold failure_outcome.
  destruct (stdio_client_enter W _ (launches s)) as [e1|];
    [|destruct (ClientSession_enter W (launches s)) as [e2|];
      [|destruct (session_initialize W (launches s)) as [e3|]; [|done]]];
    (match goal with
     | |- context [exn_is_Exception ?x] => destruct (exn_is_Exception x) eqn:F
     end; [rewrite except_outcome_quiet by done|]; intros [= <- <-];
     [|congruence]);
    simpl; rewrite !launch_count_app; simpl;
    (split_and!; [done..|lia]).
Qed.

(** X8. Lazy reconnect over HTTP.  When a [list_tools] request finds no
    session, the connect sequence fails with an instance of [Exception] (at
    any step, with releases that do not raise) and the wait for it does not
    time out, the request is answered 500 with body [{"error": str(e)}] for
    that failure, and the next [list_tools] request starts a second launch;
    if that one connects, the session answers and the second wait does not
    time out either, the request is answered 200 with the tools, two launches
    having been made in all. *)
Theorem failed_request_then_recovery (W : World) (req req' : request)
    (s s1 : sys) (e : exn) (result : ListToolsResult) :
  session (client s) = None →
  (∀ r pending, ∃ b, resource_exit W r pending = ExitOk b) →
  mcp_client._ensure_connection W s = (inl e, s1) →
  exn_is_Exception e = true →
  wait_times_out W (submitted s) = false →
  wait_times_out W (S (submitted s)) = false →
  stdio_client_enter W
    {| sp_command := command (client s); sp_args := args (client s);
       sp_env := env (client s) ∪ os_environ W |} (S (launches s)) = None →
  ClientSession_enter W (S (launches s)) = None →
  session_initialize W (S (launches s)) = None →
  session_list_tools W (S (launches s)) (S (submitted s)) = inr result →
  ∃ s2 s3,
    app.list_tools W req s
      = (inr (PDict {[ "error" := PStr (exn_str e) ]}, 500%Z), s2)
    ∧ app.list_tools W req' s2
        = (inr (PDict {[ "tools" := PList (app.tool_json <$> tools result) ]}, 200%Z), s3)
    ∧ session (client s3) = Some (S (launches s))
    ∧ launch_count (trace s3) = launch_count (trace s) + 2.
Proof.
  intros Hs Hquiet Hfail HE Hw0 Hw1 H1 H2 H3 Hres.
  destruct (ensure_connection_failure_state W s s1 e Hs Hquiet HE Hfail)
    as (Hc1 & Hl1 & Hsub1 & Hcount1).
  eexists _, _. split.
  { rewrite list_tools_answer. unfold app.run_async, mcp_client.list_tools, bind.
    rewrite Hfail, Hw0, (future_exception_Exception e HE), HE. reflexivity. }
  rewrite list_tools_answer. unfold app.run_async, mcp_client.list_tools, bind.
  simpl.
  rewrite ensure_connection_unfold; simpl; [|by rewrite Hc1].
  rewrite Hc1, Hl1, Hsub1. simpl. rewrite H1, H2, H3. simpl.
  rewrite Hres, Hw1. simpl. split_and!; [reflexivity|done|].
  simpl. rewrite !launch_count_app, Hcount1. simpl. lia.
Qed.

Lemma failed_request_then_recovery_witness :
  ∃ s2 s3,
    app.list_tools flaky_world empty_body (init_sys example_client)
      = (inr (PDict {[ "error" := PStr "Connection closed" ]}, 500%Z), s2)
    ∧ app.list_tools flaky_world empty_body s2
        = (inr (PDict {[ "tools" := PList [app.tool_json echo_tool] ]}, 200%Z), s3).
Proof.
  destruct (failed_request_then_recovery flaky_world empty_body empty_body
              (init_sys example_client) _ handshake_error {| tools := [echo_tool] |}
              eq_refl (λ r pending, ex_intro _ false eq_refl)
              eq_refl eq_refl eq_refl eq_refl eq_refl eq_refl eq_refl eq_refl)
    as (s2 & s3 & Ha & Hb & _).
  by exists s2, s3.
Defined.

(** ** Request bodies *)

(** X9. [call_tool] answers 400 exactly when the body is a JSON object
    whose "name" is absent or false in Python's sense ([None], [False], [0],
    the empty string, list or object); no other request to [call_tool] and no
    request to [list_tools] is ever answered 400. *)
Theorem status_400_exactly_for_false_name (W : World) (req : request) (s : sys) :
  ((∃ body s', app.call_tool W req s = (inr (body, 400%Z), s'))
   ↔ ∃ m, request_json req = inr (PDict m)
          ∧ truthy (default PNone (m !! "name")) = false)
  ∧ ∀ body s', app.list_tools W req s ≠ (inr (body, 400%Z), s').
Proof.
  split; [split|].
  - intros (body & s' & Hr).
    pose proof (dispatch_answers W app.CallTool req s) as Hcases.
    simpl in Hcases. rewrite Hr in Hcases.
    destruct Hcases as [?|[(_ & _ & _ & _ & Hm)|(? & _)]]; done.
  - intros (m & Hj & Hf). eexists _, _.
    exact (call_tool_falsy_name W req m s Hj Hf).
  - intros body s' Hr.
    pose proof (dispatch_answers W app.ListTools req s) as Hcases.
    simpl in Hcases. rewrite Hr in Hcases.
    destruct Hcases as [?|[(_ & ? & _)|(? & _)]]; done.
Qed.

(** X10. A [call_tool] request whose body is JSON but not an object (an
    array, a string, a number, [null]), or whose body cannot be read as JSON
    at all, is answered 500 with an error body, and the process state is
    what it was: the client is not called and nothing is launched. *)
Theorem call_tool_body_must_be_object (W : World) (req : request) (s : sys) :
  (∀ m, request_json req ≠ inr (PDict m)) →
  ∃ msg, app.call_tool W req s = (inr (error_body msg, 500%Z), s).
Proof.
  intros Hnd. destruct (request_json req) as [e|data] eqn:Hj.
  - exists (exn_str (json_error_exn e)).
    unfold app.call_tool, try_except, bind, ret. rewrite Hj. by destruct e.
  - eexists. apply (call_tool_body_not_dict W req data s Hj).
    intros m ->. by destruct (Hnd m).
Qed.

Lemma call_tool_body_must_be_object_witness :
  ∃ msg, app.call_tool healthy_world array_body (init_sys example_client)
         = (inr (error_body msg, 500%Z), init_sys example_client).
Proof.
  apply (call_tool_body_must_be_object healthy_world array_body).
  intros m. discriminate.
Defined.

(** X11. When the body of a [call_tool] request has a true "name" and an
    "arguments" key, the value of that key is what the session is called
    with, unchanged: also [null], which is passed as [None] and not replaced
    by the empty mapping.  On a connected client the call is the one thing
    the request does to the subprocess. *)
Theorem call_tool_passes_arguments_through (W : World) (req : request)
    (m : gmap string pyval) (name arguments : pyval) (s : sys) (n : nat) :
  request_json req = inr (PDict m) →
  m !! "name" = Some name →
  truthy name = true →
  m !! "arguments" = Some arguments →
  session (client s) = Some n →
  trace (app.call_tool W req s).2 = trace s ++ [EvCallTool n name arguments].
Proof.
  intros Hj Hn Ht Ha Hs.
  rewrite (call_tool_submits W req m name s Hj Hn Ht), Ha. simpl.
  pose proof (run_async_state W (mcp_client.call_tool W name arguments) s)
    as (_ & _ & Htr).
  assert (Hcall : trace (mcp_client.call_tool W name arguments s).2
                  = trace s ++ [EvCallTool n name arguments]).
  { unfold mcp_client.call_tool, bind.
    rewrite (ensure_connection_noop W s n Hs). simpl. rewrite Hs. simpl.
    by destruct (session_call_tool W n (submitted s) name arguments). }
  destruct (app.run_async W _ s) as [[e|result] s']; [|simpl in *; congruence].
  destruct (exn_is_Exception e); simpl in *; congruence.
Qed.

Lemma call_tool_passes_arguments_through_witness :
  trace (app.call_tool healthy_world null_arguments_request connected_sys).2
    = [EvCallTool 0 (PStr "echo") PNone].
Proof.
  exact (call_tool_passes_arguments_through healthy_world null_arguments_request
           {[ "name" := PStr "echo"; "arguments" := PNone ]} (PStr "echo") PNone
           connected_sys 0 eq_refl eq_refl eq_refl eq_refl eq_refl).
Defined.


(** ** Loading the configuration and starting the module *)

Section ConfigMore.
Context (json_loads : string → exn + pyval) (int : string → exn + Z).

(** X12. When there is no usable [config.yml], or its [server] entry is a
    mapping that gives all five fields, and [load_config] returns: each of
    name, command, args, env and port is the environment override if there
    is one, else the file's value, else the default; and the module-level
    reads that follow ([PORT], [SERVER_NAME], the arguments of [MCPClient])
    all succeed, so the module starts. *)
Theorem complete_file_follows_precedence (file : config_file)
    (environ : gmap string string) (cfg : gmap string pyval) :
  file_complete file →
  load_config json_loads int file environ = inr cfg →
  (∀ field, field ∈ server_fields →
     ∃ v, precedence json_loads int file environ field = Some (inr v)
          ∧ server_item cfg field = inr v)
  ∧ ∃ g, module_globals cfg = inr g ∧ g_CONFIG g = cfg.
Proof.
  intros Hcomplete Hload.
  assert (Hall : ∀ field, field ∈ server_fields →
     ∃ v, precedence json_loads int file environ field = Some (inr v)
          ∧ server_item cfg field = inr v).
  { intros field Hf.
    exact (load_config_precedence_when_complete json_loads int file environ cfg
             field Hf Hcomplete Hload). }
  split; [exact Hall|].
  assert (Hin : ∀ field, field ∈ server_fields → ∃ v, server_item cfg field = inr v).
  { intros field Hf. destruct (Hall field Hf) as (v & _ & Hv). by exists v. }
  unfold module_globals, PORT, SERVER_NAME.
  destruct (Hin "port") as [v1 ->]; [unfold server_fields; set_unfold; tauto|].
  destruct (Hin "name") as [v2 ->]; [unfold server_fields; set_unfold; tauto|].
  destruct (Hin "command") as [v3 ->]; [unfold server_fields; set_unfold; tauto|].
  destruct (Hin "args") as [v4 ->]; [unfold server_fields; set_unfold; tauto|].
  destruct (Hin "env") as [v5 ->]; [unfold server_fields; set_unfold; tauto|].
  by eexists.
Qed.

(** One override: it returns the configuration unchanged or with a
    mapping under [server]; it raises what the parser raised, or a TypeError
    when what is under [server] is not a mapping. *)
Lemma override_server_step (environ : gmap string string) (var key : string)
    (parse : string → exn + pyval) (config : gmap string pyval) (v : pyval) :
  config !! "server" = Some v →
  match override_server environ var key parse config with
  | inr config' =>
      ∃ v', config' !! "server" = Some v' ∧ ((∃ srv, v' = PDict srv) ∨ v' = v)
  | inl e =>
      ∃ raw, getenv_truthy environ var = Some raw
             ∧ (parse raw = inl e
                ∨ (exn_class e = "TypeError" ∧ ∀ srv, v ≠ PDict srv))
  end.
Proof.
  intros Hv. unfold override_server, setitem_server. rewrite Hv.
  destruct (getenv_truthy environ var) as [raw|].
  - destruct (parse raw) as [e|x] eqn:Ep; [exists raw; split; [done|by left]|].
    destruct v; try (exists raw; split; [done|right; by split]).
    eexists. rewrite lookup_insert_eq. split; [done|]. left. by eexists.
  - exists v. split; [done|by right].
Qed.

(** X13. [load_config] raises only because of an environment override:
    [json.loads] raised on MCP_ARGS, or [int] raised on PORT, or an override
    is set while the file's [server] entry is not a mapping (a TypeError).
    With none of the three variables set (or all empty) it returns for every
    file, readable or not. *)
Theorem load_config_failure_causes (file : config_file) (environ : gmap string string) :
  (∀ e, load_config json_loads int file environ = inl e →
     (∃ raw, getenv_truthy environ "MCP_ARGS" = Some raw ∧ json_loads raw = inl e)
     ∨ (∃ raw, getenv_truthy environ "PORT" = Some raw ∧ int raw = inl e)
     ∨ (exn_class e = "TypeError"
        ∧ ∃ m v, file = Loaded (YMapping m) ∧ m !! "server" = Some v
                 ∧ ∀ srv, v ≠ PDict srv))
  ∧ (getenv_truthy environ "MCP_COMMAND" = None →
     getenv_truthy environ "MCP_ARGS" = None →
     getenv_truthy environ "PORT" = None →
     ∃ cfg, load_config json_loads int file environ = inr cfg).
Proof.
  unfold load_config.
  set (config0 := match file with
                  | Loaded (YMapping m) =>
                      if bool_decide (m = ∅) then default_config else m ∪ default_config
                  | _ => default_config
                  end).
  assert (H0 : ∃ v, config0 !! "server" = Some v
            ∧ ((∃ srv, v = PDict srv)
               ∨ ∃ m, file = Loaded (YMapping m) ∧ m !! "server" = Some v)).
  { subst config0.
    destruct file as [| |[|m]]; try (eexists; split; [reflexivity|left; by eexists]).
    case_bool_decide as Hm.
    { eexists; split; [reflexivity|left; by eexists]. }
    rewrite lookup_union.
    destruct (m !! "server") as [v|] eqn:Hsrv.
    - exists v. split; [done|]. right. by exists m.
    - eexists; split; [reflexivity|left; by eexists]. }
  destruct H0 as (v & Hv & Hkind). clearbody config0.
  assert (Hbad : ∀ e v', ((∃ srv, v' = PDict srv) ∨ v' = v) →
            exn_class e = "TypeError" → (∀ srv, v' ≠ PDict srv) →
            exn_class e = "TypeError"
            ∧ ∃ m w, file = Loaded (YMapping m) ∧ m !! "server" = Some w
                     ∧ ∀ srv, w ≠ PDict srv).
  { intros e v' [[srv ->]| ->] He Hnd; [by destruct (Hnd srv)|].
    split; [done|]. destruct Hkind as [[srv ->]|(m & Hf & Hm)]; [by destruct (Hnd srv)|].
    by exists m, v. }
  split.
  - intros e.
    pose proof (override_server_step environ "MCP_COMMAND" "command"
                  (λ c, inr (PStr c)) config0 v Hv) as S1.
    destruct (override_server environ "MCP_COMMAND" "command" _ config0)
      as [e1|config1].
    { intros [= <-]. destruct S1 as (raw & _ & [?|[He Hnd]]); [done|].
      right; right. apply (Hbad e1 v); [by right|done..]. }
    destruct S1 as (v1 & Hv1 & Hk1).
    pose proof (override_server_step environ "MCP_ARGS" "args"
                  json_loads config1 v1 Hv1) as S2.
    destruct (override_server environ "MCP_ARGS" "args" _ config1)
      as [e2|config2].
    { intros [= <-]. destruct S2 as (raw & Hraw & [?|[He Hnd]]).
      - left. by exists raw.
      - right; right. by apply (Hbad e2 v1). }
    destruct S2 as (v2 & Hv2 & Hk2).
    assert (Hk2' : (∃ srv, v2 = PDict srv) ∨ v2 = v).
    { destruct Hk2 as [?| ->]; [by left|done]. }
    pose proof (override_server_step environ "PORT" "port"
                  (λ p, match int p with inl e => inl e | inr z => inr (PInt z) end)
                  config2 v2 Hv2) as S3.
    destruct (override_server environ "PORT" "port" _ config2) as [e3|config3]; [|done].
    intros [= <-]. destruct S3 as (raw & Hraw & [Hp|[He Hnd]]).
    + right; left. exists raw. split; [done|]. destruct (int raw); congruence.
    + right; right. by apply (Hbad e3 v2).
  - intros E1 E2 E3. unfold override_server. rewrite E1, E2, E3. by eexists.
Qed.

End ConfigMore.

Lemma complete_file_follows_precedence_witness :
  ∃ g, module_globals
         {[ "server" := PDict
              {[ "name" := PStr "airbnb"; "command" := PStr "npx";
                 "args" := PList [PStr "-y"; PStr "@openbnb/mcp-server-airbnb"];
                 "env" := PDict ∅; "port" := PInt 8080 ]} ]} = inr g
       ∧ g_PORT g = PInt 8080.
Proof.
  assert (Hc : file_complete full_file).
  { unfold file_complete, full_file. rewrite lookup_singleton_eq.
    intros field Hf. unfold server_fields in Hf.
    rewrite !elem_of_cons, elem_of_nil in Hf.
    destruct Hf as [->|[->|[->|[->|[->|[]]]]]]; eexists; reflexivity. }
  assert (Hl : load_config example_json_loads example_int full_file
                 {[ "PORT" := "8080" ]}
               = inr {[ "server" := PDict
                          {[ "name" := PStr "airbnb"; "command" := PStr "npx";
                             "args" := PList [PStr "-y"; PStr "@openbnb/mcp-server-airbnb"];
                             "env" := PDict ∅; "port" := PInt 8080 ]} ]}).
  { vm_compute. reflexivity. }
  destruct (complete_file_follows_precedence example_json_loads example_int
              full_file {[ "PORT" := "8080" ]} _ Hc Hl) as (_ & g & Hg & _).
  exists g. split; [exact Hg|].
  revert Hg. vm_compute. by intros [= <-].
Defined.

Lemma load_config_failure_causes_witness :
  ∃ cfg, load_config example_json_loads example_int (LoadFails handshake_error) ∅
         = inr cfg.
Proof.
  exact (proj2 (load_config_failure_causes example_json_loads example_int
                  (LoadFails handshake_error) ∅) eq_refl eq_refl eq_refl).
Defined.

Section ConfigEnvironment.
Context (json_loads : string → exn + pyval) (int : string → exn + Z).

Lemma load_config_getenv (file : config_file) (e1 e2 : gmap string string) :
  getenv_truthy e1 "MCP_COMMAND" = getenv_truthy e2 "MCP_COMMAND" →
  getenv_truthy e1 "MCP_ARGS" = getenv_truthy e2 "MCP_ARGS" →
  getenv_truthy e1 "PORT" = getenv_truthy e2 "PORT" →
  load_config json_loads int file e1 = load_config json_loads int file e2.
Proof.
  intros H1 H2 H3. unfold load_config, override_server. by rewrite H1, H2, H3.
Qed.

(** X14. The configuration depends on the environment through MCP_COMMAND,
    MCP_ARGS and PORT only: setting any other variable changes nothing, and
    setting one of the three to the empty string is the same as not setting
    it (the file's value or the default stays). *)
Theorem load_config_reads_three_variables (file : config_file)
    (environ : gmap string string) (var value : string) :
  (var ≠ "MCP_COMMAND" → var ≠ "MCP_ARGS" → var ≠ "PORT" →
   load_config json_loads int file (<[var:=value]> environ)
     = load_config json_loads int file environ)
  ∧ load_config json_loads int file (<[var:=""]> environ)
      = load_config json_loads int file (delete var environ).
Proof.
  split.
  - intros H1 H2 H3. apply load_config_getenv; unfold getenv_truthy;
      by rewrite lookup_insert_ne.
  - assert (Hk : ∀ k, getenv_truthy (<[var:=""]> environ) k
                      = getenv_truthy (delete var environ) k).
    { intros k. unfold getenv_truthy. destruct (decide (var = k)) as [->|Hne].
      - by rewrite lookup_insert_eq, lookup_delete_eq.
      - by rewrite lookup_insert_ne, lookup_delete_ne. }
    apply load_config_getenv; apply Hk.
Qed.

End ConfigEnvironment.

Lemma load_config_reads_three_variables_witness :
  load_config example_json_loads example_int full_file
    (<["HOME":="/root"]> {[ "PORT" := "8080" ]})
  = load_config example_json_loads example_int full_file {[ "PORT" := "8080" ]}.
Proof.
  apply (proj1 (load_config_reads_three_variables example_json_loads example_int
                  full_file {[ "PORT" := "8080" ]} "HOME" "/root")); discriminate.
Defined.

Section HealthFacts.
Context (str_other : pyval → string).

(** X15. Once the module-level reads have succeeded, [/health] cannot
    fail: it answers 200 with status "healthy", the service name built from
    [SERVER_NAME], and the very command and arguments that [mcp_client] was
    constructed with. *)
Theorem health_answers_after_module_start (CONFIG : gmap string pyval) (g : globals) :
  module_globals CONFIG = inr g →
  health str_other CONFIG (g_SERVER_NAME g)
    = inr (PDict {[ "status" := PStr "healthy";
                    "service" := PStr (format_value str_other (g_SERVER_NAME g)
                                         ++ "-http-wrapper")%string;
                    "mcp_server" := PDict {[ "command" := g_command g;
                                             "args" := g_args g ]} ]},
           200%Z).
Proof.
  unfold module_globals, health.
  destruct (PORT CONFIG) as [e|port]; [done|].
  destruct (SERVER_NAME CONFIG) as [e|name]; [done|].
  destruct (server_item CONFIG "command") as [e|command]; [done|].
  destruct (server_item CONFIG "args") as [e|args]; [done|].
  destruct (server_item CONFIG "env") as [e|env]; [done|].
  by intros [= <-].
Qed.

End HealthFacts.

Lemma health_answers_after_module_start_witness :
  ∃ g, module_globals default_config = inr g
       ∧ health (λ _, "") default_config (g_SERVER_NAME g)
         = inr (PDict {[ "status" := PStr "healthy";
                         "service" := PStr "generic-mcp-server-http-wrapper";
                         "mcp_server" := PDict {[ "command" := PStr "python";
                                                  "args" := PList [PStr "server.py"] ]} ]},
                200%Z).
Proof.
  eexists. split; [reflexivity|].
  exact (health_answers_after_module_start (λ _, "") default_config _ eq_refl).
Defined.

(** ** The background event loop *)

Lemma get_event_loop_step (is_running : nat → bool) (b : bridge) :
  _loop b = _loop_thread b →
  match _loop b with
  | None => loops_created b = 0
  | Some l => loops_created b = S l
  end →
  let '(l, b') := get_event_loop is_running b in
  _loop b' = Some l ∧ _loop_thread b' = Some l
  ∧ loops_created b' = S l
  ∧ (loops_created b' = loops_created b ∨ loops_created b' = S (loops_created b))
  ∧ (∀ l0, _loop b = Some l0 → is_running l0 = true → b' = b).
Proof.
  intros Hth Hnew. unfold get_event_loop.
  destruct (_loop b) as [l0|] eqn:E.
  - destruct (is_running l0) eqn:Er; simpl.
    + split_and!; try done; try congruence. by left.
    + split_and!; try done; try (by right). intros l1 [= <-]. congruence.
  - simpl. split_and!; try done. by right.
Qed.

(** X16. However [loop.is_running()] answers, after any number of calls
    of [get_event_loop] in a row: the loop handed out by the last call is
    the one recorded in [_loop], it is the newest loop created, and
    [_loop_thread] is the thread started for it; every call hands out a loop
    that exists; and no call creates more than one loop. *)
Theorem get_event_loop_globals (is_running : nat → nat → bool) (n : nat) :
  let '(ls, b) := get_event_loop_calls is_running 0 n bridge_init in
  length ls = n
  ∧ _loop b = _loop_thread b
  ∧ _loop b = last ls
  ∧ match _loop b with
    | None => loops_created b = 0
    | Some l => loops_created b = S l
    end
  ∧ (loops_created b ≤ n)%nat
  ∧ Forall (λ l, (l < loops_created b)%nat) ls.
Proof.
  assert (Hgen : ∀ i b0,
    _loop b0 = _loop_thread b0 →
    match _loop b0 with
    | None => loops_created b0 = 0
    | Some l => loops_created b0 = S l
    end →
    let '(ls, b) := get_event_loop_calls is_running i n b0 in
    length ls = n
    ∧ _loop b = _loop_thread b
    ∧ _loop b = match last ls with Some l => Some l | None => _loop b0 end
    ∧ match _loop b with
      | None => loops_created b = 0
      | Some l => loops_created b = S l
      end
    ∧ (loops_created b0 ≤ loops_created b ≤ loops_created b0 + n)%nat
    ∧ Forall (λ l, (l < loops_created b)%nat) ls).
  { induction n as [|n IH]; intros i b0 Hth Hnew; simpl.
    { split_and!; try done; lia. }
    pose proof (get_event_loop_step (is_running i) b0 Hth Hnew) as Hstep.
    destruct (get_event_loop (is_running i) b0) as [l b1].
    destruct Hstep as (Hl & Ht & Hc & Hgrow & _).
    specialize (IH (S i) b1).
    destruct (get_event_loop_calls is_running (S i) n b1) as [ls b2].
    destruct IH as (Hlen & Hth2 & Hlast & Hnew2 & Hbound & Hall).
    { congruence. }
    { by rewrite Hl. }
    split_and!; try done.
    - simpl. by rewrite Hlen.
    - rewrite Hlast. rewrite last_cons. by destruct (last ls).
    - lia.
    - lia.
    - constructor; [lia|done]. }
  specialize (Hgen 0 bridge_init eq_refl eq_refl).
  destruct (get_event_loop_calls is_running 0 n bridge_init) as [ls b].
  destruct Hgen as (Hlen & Hth & Hlast & Hnew & Hbound & Hall).
  split_and!; try done.
  - rewrite Hlast. by destruct (last ls).
  - simpl in Hbound. lia.
Qed.

(** X17. As long as every call finds the recorded loop running, all calls
    of [get_event_loop] after the first hand out the loop the first call
    created: one loop and one thread exist, however many calls are made. *)
Theorem get_event_loop_reuses_running_loop (is_running : nat → nat → bool) (n : nat) :
  (∀ i l, is_running i l = true) →
  let '(ls, b) := get_event_loop_calls is_running 0 (S n) bridge_init in
  ls = replicate (S n) 0
  ∧ b = {| _loop := Some 0; _loop_thread := Some 0; loops_created := 1 |}.
Proof.
  intros Hrun. simpl.
  assert (Hgen : ∀ i, get_event_loop_calls is_running i n
                        {| _loop := Some 0; _loop_thread := Some 0; loops_created := 1 |}
                      = (replicate n 0,
                         {| _loop := Some 0; _loop_thread := Some 0; loops_created := 1 |})).
  { induction n as [|n IH]; intros i; [done|].
    simpl. unfold get_event_loop. simpl. rewrite Hrun. simpl. by rewrite IH. }
  unfold get_event_loop. simpl. by rewrite Hgen.
Qed.

Lemma get_event_loop_reuses_running_loop_witness :
  (get_event_loop_calls (λ _ _, true) 0 3 bridge_init).1 = [0; 0; 0].
Proof.
  pose proof (get_event_loop_reuses_running_loop (λ _ _, true) 2 (λ _ _, eq_refl)) as H.
  simpl in H. exact (proj1 H).
Defined.

(** ** Where a failure of a client call comes from *)

(** X18. When no exit callback raises, a failure of [_ensure_connection]
    at any of its three steps with an instance of [Exception] is handled
    completely: the exception raised is the one of the failing step, what
    had been entered is exited in reverse order (nothing for a failed launch,
    the transport for a failed session entry, the session and then the
    transport for a failed handshake), the client is as before the call with
    no session and no exit stack, and the next [_ensure_connection] starts
    with a new launch. *)
Theorem failed_connect_is_undone_when_exits_return (W : World) (s s' : sys) (e : exn) :
  session (client s) = None →
  (∀ r pending, ∃ b, resource_exit W r pending = ExitOk b) →
  exn_is_Exception e = true →
  mcp_client._ensure_connection W s = (inl e, s') →
  let n := launches s in
  let p := {| sp_command := command (client s); sp_args := args (client s);
              sp_env := env (client s) ∪ os_environ W |} in
  client s' = set_exit_stack None (client s)
  ∧ ((stdio_client_enter W p n = Some e ∧ trace s' = trace s ++ [EvLaunch p])
     ∨ (ClientSession_enter W n = Some e
        ∧ trace s' = trace s ++ [EvLaunch p; EvSessionEnter n;
                                 EvRelease (Transport n)])
     ∨ (session_initialize W n = Some e
        ∧ trace s' = trace s ++ [EvLaunch p; EvSessionEnter n; EvInitialize n;
                                 EvRelease (Session n); EvRelease (Transport n)]))
  ∧ ∃ rest, trace (mcp_client._ensure_connection W s').2
            = trace s' ++ EvLaunch p :: rest.
Proof.
  intros Hs Hquiet HE Hfail n p.
  destruct (ensure_connection_failure_resets W s s' e Hs Hquiet HE Hfail)
    as (Hc & Hs' & _ & Hcases).
  split_and!.
  - exact Hc.
  - destruct Hcases as [[? ?]|[(_ & ? & ?)|(_ & _ & ? & ?)]].
    + by left.
    + right; by left.
    + right; by right.
  - destruct (ensure_connection_launches_first W s' Hs') as (rest & Ht & _).
    exists rest. rewrite Ht, Hc. reflexivity.
Qed.

Lemma failed_connect_is_undone_when_exits_return_witness :
  client (mcp_client._ensure_connection flaky_world (init_sys example_client)).2
    = set_exit_stack None example_client.
Proof.
  exact (proj1 (failed_connect_is_undone_when_exits_return flaky_world
                  (init_sys example_client) _ handshake_error eq_refl
                  (λ r pending, ex_intro _ false eq_refl) eq_refl eq_refl)).
Defined.

(** X19. A failure of [MCPClient.list_tools] or [MCPClient.call_tool] has
    one of two origins.  Either [_ensure_connection] raised it: then no
    request was sent to the session.  Or the connection stands and the
    request on the session raised it: then the request is the last event,
    and the client keeps its session and exit stack (the failed request does
    not disconnect). *)
Theorem client_call_failure_origin (W : World) (s s' : sys) (e : exn) :
  (mcp_client.list_tools W s = (inl e, s') →
     mcp_client._ensure_connection W s = (inl e, s')
     ∨ ∃ s1 n, mcp_client._ensure_connection W s = (inr tt, s1)
               ∧ session (client s1) = Some n
               ∧ session_list_tools W n (submitted s1) = inl e
               ∧ client s' = client s1
               ∧ trace s' = trace s1 ++ [EvListTools n])
  ∧ ∀ name arguments,
      mcp_client.call_tool W name arguments s = (inl e, s') →
      mcp_client._ensure_connection W s = (inl e, s')
      ∨ ∃ s1 n, mcp_client._ensure_connection W s = (inr tt, s1)
                ∧ session (client s1) = Some n
                ∧ session_call_tool W n (submitted s1) name arguments = inl e
                ∧ client s' = client s1
                ∧ trace s' = trace s1 ++ [EvCallTool n name arguments].
Proof.
  split; [|intros name arguments];
    unfold mcp_client.list_tools, mcp_client.call_tool, bind;
    destruct (mcp_client._ensure_connection W s) as [[e0|[]] s1] eqn:E;
    try (intros [= <- <-]; by left);
    destruct (ensure_connection_success_session W s s1 E) as [n Hn];
    unfold get_self, tell; simpl; rewrite Hn; simpl; intros Hcall; right;
    exists s1, n.
  - destruct (session_list_tools W n (submitted s1)) as [e1|r]; [|done].
    injection Hcall as <- <-. by split_and!.
  - destruct (session_call_tool W n (submitted s1) name arguments) as [e1|r]; [|done].
    injection Hcall as <- <-. by split_and!.
Qed.

Lemma client_call_failure_origin_witness :
  mcp_client._ensure_connection dead_world (init_sys example_client)
    = (inl launch_error, (mcp_client.list_tools dead_world (init_sys example_client)).2).
Proof.
  destruct (proj1 (client_call_failure_origin dead_world (init_sys example_client)
                     _ launch_error) eq_refl) as [H|(s1 & n & H & _)].
  - exact H.
  - discriminate H.
Defined.
